(** * flowlint: combo-class detection and the style service

    A shallow embedding of [src/entities/style/model/style.service.ts]
    (with the policy type of [src/features/linter/model/linter.types.ts])
    and the properties of it that the specification states.

    Conventions of the embedding:
    - a JavaScript string is the list of its UTF-16 code units;
    - an awaited promise (and a call that may throw) is its [Outcome]:
      the value it resolves to, or the rejection;
    - [try { .. } catch { .. }] is [try_catch], and a [try] block that
      only assigns a variable is [try_assign];
    - a call of a custom policy function, like any other call, returns
      its boolean or throws;
    - [console.*] logging is not modelled (every [DEBUG] flag is [false],
      and the remaining [console.error] calls have no effect on results). *)

From Stdlib Require Import ZArith NArith List Lia Ascii String Permutation Sorted.
From stdpp Require Import base option list gmap sorting.

Local Open Scope N_scope.

(** ** JavaScript strings *)

Abbreviation code_unit := N.
Abbreviation jsstring := (list N).

(** An ASCII literal as a JavaScript string. *)
Definition js (s : string) : jsstring :=
  map N_of_ascii (list_ascii_of_string s).

(** [String.prototype.startsWith]. *)
Fixpoint startsWith (s prefix : jsstring) : bool :=
  match prefix, s with
  | [], _ => true
  | p :: prefix', c :: s' => (c =? p) && startsWith s' prefix'
  | _ :: _, [] => false
  end.

(** ECMAScript [WhiteSpace] and [LineTerminator] code points, the ones
    [String.prototype.trim] strips; all of them are single code units. *)
Definition isWhiteSpace (c : code_unit) : bool :=
  (c =? 0x0009) || (c =? 0x000B) || (c =? 0x000C) || (c =? 0xFEFF)
  || (c =? 0x0020) || (c =? 0x00A0) || (c =? 0x1680)
  || ((0x2000 <=? c) && (c <=? 0x200A))
  || (c =? 0x202F) || (c =? 0x205F) || (c =? 0x3000).

Definition isLineTerminator (c : code_unit) : bool :=
  (c =? 0x000A) || (c =? 0x000D) || (c =? 0x2028) || (c =? 0x2029).

Definition isTrimmed (c : code_unit) : bool :=
  isWhiteSpace c || isLineTerminator c.

Fixpoint trimStart (s : jsstring) : jsstring :=
  match s with
  | c :: s' => if isTrimmed c then trimStart s' else s
  | [] => []
  end.

Definition trimEnd (s : jsstring) : jsstring :=
  rev (trimStart (rev s)).

(** [String.prototype.trim]. *)
Definition trim (s : jsstring) : jsstring := trimEnd (trimStart s).

(** ** The regular expression of the heuristic

    The fragment of ECMAScript patterns that the combo heuristic uses,
    matched by backtracking against a continuation. The pattern has no
    flags: a class is a union of code-unit ranges and [.] excludes the
    line terminators. *)

(** Patterns that consume exactly one code unit. *)
Inductive atom : Type :=
| Class (ranges : list (ascii * ascii))    (* [A-Za-z0-9] *)
| Dot.                                     (* . *)

Inductive regex : Type :=
| Lit (s : string)              (* literal characters *)
| One (a : atom)
| Seq (r1 r2 : regex)           (* r1 r2 *)
| Alt (r1 r2 : regex)           (* r1|r2 *)
| Star (a : atom).              (* a*, greedy *)

Definition inRange (r : ascii * ascii) (c : code_unit) : bool :=
  (N_of_ascii (fst r) <=? c) && (c <=? N_of_ascii (snd r)).

Definition accepts (a : atom) (c : code_unit) : bool :=
  match a with
  | Class ranges => existsb (fun r => inRange r c) ranges
  | Dot => negb (isLineTerminator c)
  end.

(** The rest of [s] after the literal [l], if [s] starts with it. *)
Fixpoint afterLit (l s : jsstring) : option jsstring :=
  match l, s with
  | [], _ => Some s
  | p :: l', c :: s' => if c =? p then afterLit l' s' else None
  | _ :: _, [] => None
  end.

(** Greedy iteration: as many units as possible, giving them back one
    at a time until the continuation succeeds. *)
Fixpoint star (a : atom) (s : jsstring) (k : jsstring -> bool) : bool :=
  match s with
  | c :: s' => if accepts a c then star a s' k || k s else k s
  | [] => k s
  end.

Fixpoint rmatch (r : regex) (s : jsstring) (k : jsstring -> bool) : bool :=
  match r with
  | Lit l =>
      match afterLit (js l) s with Some s' => k s' | None => false end
  | One a =>
      match s with c :: s' => accepts a c && k s' | [] => false end
  | Seq r1 r2 => rmatch r1 s (fun s' => rmatch r2 s' k)
  | Alt r1 r2 => rmatch r1 s k || rmatch r2 s k
  | Star a => star a s k
  end.

(** [/^r/.test(s)]: anchored at the start of [s] only. *)
Definition test (r : regex) (s : jsstring) : bool :=
  rmatch r s (fun _ => true).

Definition alnumClass : atom := Class [("A", "Z"); ("a", "z"); ("0", "9")]%char.
Definition upperClass : atom := Class [("A", "Z")]%char.

(** [/^(?:is-[A-Za-z0-9]|is_[A-Za-z0-9]|is[A-Z]).*/] *)
Definition comboPattern : regex :=
  Seq (Alt (Seq (Lit "is-") (One alnumClass))
           (Alt (Seq (Lit "is_") (One alnumClass))
                (Seq (Lit "is") (One upperClass))))
      (Star Dot).

(** ** Promises and exceptions *)

(** What awaiting a promise (or making a call that may throw) gives. *)
Inductive Outcome (A : Type) : Type :=
| Resolved (a : A)
| Rejected (error : jsstring).
Arguments Resolved {A} a.
Arguments Rejected {A} error.

#[global] Instance Outcome_ret : MRet Outcome := fun _ a => Resolved a.
#[global] Instance Outcome_bind : MBind Outcome := fun _ _ k c =>
  match c with
  | Resolved a => k a
  | Rejected e => Rejected e
  end.

(** [try { c } catch (error) { handler error }] *)
Definition try_catch {A} (c : Outcome A) (handler : jsstring -> Outcome A)
  : Outcome A :=
  match c with
  | Resolved a => Resolved a
  | Rejected e => handler e
  end.

(** ** Data model *)

(** [any]-typed style properties: opaque to this module, which only
    passes them on; [{}] is the empty list. *)
Abbreviation Props := (list (jsstring * jsstring)).

(** A value of type [boolean | null | undefined]. *)
Inductive Signal : Type :=
| SigBool (b : bool)
| SigNull
| SigUndefined.

Inductive ComboDetectionSource : Type := SrcApi | SrcHeuristic | SrcPolicy.

Record ComboDetectionResult : Type := mkResult {
  isCombo : bool;
  source : ComboDetectionSource;
}.

(** [ComboDetectionPolicy]: at run time either a string (one of the three
    names, or any other value that reaches the [default:] case) or a
    function, told apart by [typeof]. A call of a custom function
    returns a [boolean], its declared type, or throws. *)
Inductive ComboDetectionPolicy : Type :=
| PolicyName (name : jsstring)
| PolicyFn (fn : Signal -> bool -> jsstring -> Outcome bool).

(** The fields of [Preset] that the style service reads. *)
Module Preset.
Record t : Type := mk {
  id : jsstring;
  comboDetectionPolicy : option ComboDetectionPolicy;   (* [None]: absent *)
}.
End Preset.

(** The host's [Style] object, given by what its methods do when the
    service calls them. *)
Module Style.
Record t : Type := mk {
  id : jsstring;
  (** [await style.getName()]; [None] is [null] or [undefined] *)
  getName : Outcome (option jsstring);
  (** [await style.getProperties({ breakpoint })] *)
  getProperties : jsstring -> Outcome Props;
  (** [None]: the object has no such method; otherwise what
      [await style.isComboClass()] gives *)
  isComboClass : option (Outcome Signal);
}.
End Style.

Module StyleInfo.
Record t : Type := mk {
  id : jsstring;
  name : jsstring;
  properties : Props;
  order : Z;
  isCombo : bool;
  comboDetectionSource : ComboDetectionSource;
}.
End StyleInfo.

(** ** [detectComboClass] *)

(** Line 52: the heuristic on the class name. *)
Definition heuristicResult (className : jsstring) : bool :=
  test comboPattern className.

Definition isTrue (v : Signal) : bool :=
  match v with SigBool true => true | _ => false end.

Definition detectComboClass
    (style : Style.t) (className : jsstring) (preset : option Preset.t)
  : Outcome ComboDetectionResult :=
  let heuristicResult := heuristicResult className in
  '(apiResult, hasApiMethod) ←
    match Style.isComboClass style with
    | Some call =>
        apiResult ← try_catch call (fun _ => Resolved SigNull);
        mret (apiResult, true)
    | None => mret (SigUndefined, false)
    end;
  let policy :=
    default (PolicyName (js "api-first"))
            (preset ≫= Preset.comboDetectionPolicy) in
  match policy with
  | PolicyFn fn =>
      result ← fn apiResult heuristicResult className;
      mret {| isCombo := result; source := SrcPolicy |}
  | PolicyName name =>
      if decide (name = js "api-only") then
        mret {| isCombo := isTrue apiResult;
                source := if hasApiMethod : bool then SrcApi else SrcPolicy |}
      else if decide (name = js "heuristic-only") then
        mret {| isCombo := heuristicResult; source := SrcHeuristic |}
      else
        match apiResult with
        | SigBool b => mret {| isCombo := b; source := SrcApi |}
        | SigNull | SigUndefined =>
            mret {| isCombo := heuristicResult; source := SrcHeuristic |}
        end
  end.


(** ** [getAppliedStyles] *)

(** The element handle passed in ([any]): [getStyles] is [None] when the
    object has no such method; the promise may resolve to [null] or
    [undefined] ([None]) as well as to an array. *)
Module Element.
Record t : Type := mk {
  getStyles : option (Outcome (option (list Style.t)));
}.
End Element.

(** The two imported functions ([linter.factory] and [presets]), by what
    a call gives: both are synchronous and may throw. *)
Record PresetRegistry : Type := mkRegistry {
  getCurrentPreset : Outcome jsstring;
  getPresetById : jsstring -> Outcome (option Preset.t);
}.

(** [let x = old; try { x = c } catch { }]: the variable keeps its value
    when the block throws. *)
Definition try_assign {A} (old : A) (c : Outcome A) : A :=
  match c with
  | Resolved a => a
  | Rejected _ => old
  end.

(** Lines 198-204. *)
Definition currentPreset (registry : PresetRegistry) : option Preset.t :=
  try_assign None
    (presetId ← getCurrentPreset registry; getPresetById registry presetId).

(** The two accumulators of the loop. *)
Record Acc : Type := mkAcc {
  seenIds : gset jsstring;
  uniqueStyles : list StyleInfo.t;
}.

(** [name?.trim() || ""] *)
Definition trimmedNameOf (name : option jsstring) : jsstring :=
  match name with
  | Some n => trim n
  | None => []
  end.

(** A string is truthy when it is not empty. *)
Definition truthy (s : jsstring) : bool :=
  match s with [] => false | _ :: _ => true end.

(** The body of the [try] block of the loop, lines 212-243, at index [i].
    Both calls that may throw come before the first update of the
    accumulators. *)
Definition processStyle
    (preset : option Preset.t) (i : nat) (style : Style.t) (acc : Acc)
  : Outcome Acc :=
  let id := Style.id style in
  name ← Style.getName style;
  let trimmedName := trimmedNameOf name in
  comboDetection ← detectComboClass style trimmedName preset;
  let isCombo := isCombo comboDetection in
  let comboDetectionSource := source comboDetection in
  if truthy id && negb (bool_decide (id ∈ seenIds acc)) then
    let properties :=
      if startsWith trimmedName (js "u-")
      then try_assign [] (Style.getProperties style (js "main"))
      else [] in
    mret {| seenIds := {[ id ]} ∪ seenIds acc;
            uniqueStyles := uniqueStyles acc ++
              [ StyleInfo.mk id trimmedName properties (Z.of_nat i)
                             isCombo comboDetectionSource ] |}
  else mret acc.

(** The [for] loop from index [i] on, over the rest of the array. *)
Fixpoint processStyles
    (preset : option Preset.t) (i : nat) (rest : list Style.t) (acc : Acc)
  : Acc :=
  match rest with
  | [] => acc
  | style :: rest' =>
      processStyles preset (S i) rest'
        (try_assign acc (processStyle preset i style acc))
  end.

Definition getAppliedStyles
    (registry : PresetRegistry) (element : option Element.t)
  : Outcome (list StyleInfo.t) :=
  match element ≫= Element.getStyles with
  | None => mret []
  | Some call =>
      match call with
      | Rejected _ => mret []
      | Resolved None | Resolved (Some []) => mret []
      | Resolved (Some appliedStyles) =>
          let preset := currentPreset registry in
          mret (uniqueStyles
                  (processStyles preset 0 appliedStyles (mkAcc ∅ [])))
      end
  end.

(** ** [sortStylesByType] *)

(** The comparator passed to [sort]. *)
Definition compareStyles (a b : StyleInfo.t) : Z :=
  let aIsCombo := bool_decide (StyleInfo.isCombo a = true) in
  let bIsCombo := bool_decide (StyleInfo.isCombo b = true) in
  if negb (eqb aIsCombo bIsCombo) then (if aIsCombo then 1 else -1)%Z
  else (StyleInfo.order a - StyleInfo.order b)%Z.

(** [Array.prototype.sort] on the contents of an array: a stable sort by
    the comparator, here by insertion. [x] goes before [y] when
    [comparefn x y <= 0]. *)
Fixpoint insertSorted {A} (comparefn : A -> A -> Z) (x : A) (l : list A)
  : list A :=
  match l with
  | [] => [x]
  | y :: l' =>
      if (comparefn x y <=? 0)%Z then x :: l
      else y :: insertSorted comparefn x l'
  end.

Definition sorted {A} (comparefn : A -> A -> Z) (l : list A) : list A :=
  foldr (insertSorted comparefn) [] l.

(** Arrays are objects: a value of type [StyleInfo[]] is a reference
    into a store, [sort] updates the array it is called on and
    [[...a]] allocates a new one. *)
Abbreviation Store := (gmap nat (list StyleInfo.t)).

(** [[...a]] *)
Definition spread (st : Store) (a : nat) : option (Store * nat) :=
  elems ← st !! a;
  let copy := fresh (dom st) in
  Some (<[copy := elems]> st, copy).

(** [a.sort(comparefn)]: sorts in place and returns [a] itself. *)
Definition sortInPlace (comparefn : StyleInfo.t -> StyleInfo.t -> Z)
    (st : Store) (a : nat) : option (Store * nat) :=
  elems ← st !! a;
  Some (<[a := sorted comparefn elems]> st, a).

(** [None] only for a reference that is not in the store. *)
Definition sortStylesByType (st : Store) (styles : nat)
  : option (Store * nat) :=
  '(st1, copy) ← spread st styles;
  sortInPlace compareStyles st1 copy.

(** ** The element lint store

    The store that follows the type declarations in
    [src/features/linter/model/linter.types.ts]: its state, [refresh],
    [clear] and the handler of the Designer's [selectedelement] event.
    The result and context types live in modules that are not part of
    the sources at hand, and are parameters [R] and [C] here; so are the
    linter initialisation and the scan, given by what a call does. *)

Module ElementRole.
Inductive t : Type :=
| componentRoot | childGroup | container | layout | content | title
| text | actions | button | link | icon | list | item | unknown.
End ElementRole.

Module LintState.
Record t (R C : Type) : Type := mk {
  results : list R;
  contexts : list C;
  classNames : list jsstring;
  roles : list ElementRole.t;
  loading : bool;
  error : option jsstring;        (* [None] is [null] *)
}.
Arguments mk {R C}.
Arguments results {R C}.
Arguments contexts {R C}.
Arguments classNames {R C}.
Arguments roles {R C}.
Arguments loading {R C}.
Arguments error {R C}.
End LintState.

Definition initialState {R C} : LintState.t R C :=
  LintState.mk [] [] [] [] false None.

(** A thrown value: an [Error] object with its message, or anything
    else. *)
Inductive Thrown : Type :=
| ErrorObject (message : jsstring)
| OtherValue.

Inductive Attempt (A : Type) : Type :=
| Returned (a : A)
| Threw (thrown : Thrown).
Arguments Returned {A} a.
Arguments Threw {A} thrown.

(** What [scanSelectedElementWithMeta] resolves to; the optional fields
    are [None] when they are missing. *)
Module Meta.
Record t (R C : Type) : Type := mk {
  results : list R;
  classNames : option (list jsstring);
  contexts : option (list C);
  roles : option (list ElementRole.t);
}.
Arguments mk {R C}.
Arguments results {R C}.
Arguments classNames {R C}.
Arguments contexts {R C}.
Arguments roles {R C}.
End Meta.

(** The selected element, by whether it has a [getStyles] method and by
    what scanning it gives. *)
Record SelectedElement (R C : Type) : Type := mkSelected {
  hasGetStyles : bool;
  scanSelectedElementWithMeta : Attempt (Meta.t R C);
}.
Arguments mkSelected {R C}.
Arguments hasGetStyles {R C}.
Arguments scanSelectedElementWithMeta {R C}.

(** [window.webflow]; [getSelectedElement] is [None] when it is not a
    function, and may resolve to no element. *)
Record Designer (R C : Type) : Type := mkDesigner {
  getSelectedElement : option (Attempt (option (SelectedElement R C)));
}.
Arguments mkDesigner {R C}.
Arguments getSelectedElement {R C}.

Record Window (R C : Type) : Type := mkWindow {
  ensureLinterInitialized : Attempt unit;
  designer : option (Designer R C);
}.
Arguments mkWindow {R C}.
Arguments ensureLinterInitialized {R C}.
Arguments designer {R C}.

(** [set({ results: [], contexts: [], classNames: [], roles: [],
    loading: false })] *)
Definition setNothingSelected {R C} (s : LintState.t R C) : LintState.t R C :=
  LintState.mk [] [] [] [] false (LintState.error s).

(** [set({ loading: true, error: null })] *)
Definition setLoading {R C} (s : LintState.t R C) : LintState.t R C :=
  LintState.mk (LintState.results s) (LintState.contexts s)
               (LintState.classNames s) (LintState.roles s) true None.

(** The [set] that publishes a scan. *)
Definition setScanned {R C} (meta : Meta.t R C) (s : LintState.t R C)
  : LintState.t R C :=
  LintState.mk (Meta.results meta)
               (default [] (Meta.contexts meta))
               (default [] (Meta.classNames meta))
               (default [] (Meta.roles meta))
               false (LintState.error s).

(** [set({ ...initialState, error: message })] *)
Definition setFailed {R C} (message : jsstring) : LintState.t R C :=
  LintState.mk [] [] [] [] false (Some message).

(** [err instanceof Error ? err.message : "Failed to lint element"] *)
Definition messageOf (thrown : Thrown) : jsstring :=
  match thrown with
  | ErrorObject message => message
  | OtherValue => js "Failed to lint element"
  end.

(** [refresh]: the states it publishes, one per call of [set], in
    order. *)
Definition refresh {R C} (window : Window R C) (s : LintState.t R C)
  : list (LintState.t R C) :=
  if LintState.loading s then []
  else
    match ensureLinterInitialized window with
    | Threw err => [setFailed (messageOf err)]
    | Returned _ =>
        let s1 := setLoading s in
        s1 ::
        match designer window ≫= getSelectedElement with
        | None => [setNothingSelected s1]
        | Some (Threw err) => [setFailed (messageOf err)]
        | Some (Returned None) => [setNothingSelected s1]
        | Some (Returned (Some el)) =>
            if negb (hasGetStyles el) then [setNothingSelected s1]
            else
              match scanSelectedElementWithMeta el with
              | Threw err => [setFailed (messageOf err)]
              | Returned meta => [setScanned meta s1]
              end
        end
    end.

(** [clear] *)
Definition clear {R C} (s : LintState.t R C) : list (LintState.t R C) :=
  [initialState].

(** The handler of the [selectedelement] event: the new value of
    [__flowlint_ignoreNextSelectedEvent] and the states published. *)
Definition onSelectedElement {R C}
    (ignoreNextSelectedEvent : bool) (el : option (SelectedElement R C))
    (s : LintState.t R C) : bool * list (LintState.t R C) :=
  if ignoreNextSelectedEvent then (false, [])
  else
    (ignoreNextSelectedEvent,
     match el with
     | None => [setNothingSelected s]
     | Some el =>
         if negb (hasGetStyles el) then [setNothingSelected s]
         else
           let s1 := setLoading s in
           s1 ::
           match scanSelectedElementWithMeta el with
           | Returned meta => [setScanned meta s1]
           | Threw _ => [setFailed (js "Failed to lint element")]
           end
     end).

(** The state of the store once the states of a run are published. *)
Definition settled {R C} (s : LintState.t R C)
    (published : list (LintState.t R C)) : LintState.t R C :=
  List.last published s.

(** Results, contexts, class names and roles are all empty. *)
Definition showsNothing {R C} (s : LintState.t R C) : Prop :=
  LintState.results s = [] /\ LintState.contexts s = []
  /\ LintState.classNames s = [] /\ LintState.roles s = [].

(** ** The fixtures of the test suite

    [style.service.combo-detection.test.ts]: the mocked preset registry
    and [createMockStyle]. *)

(** The third argument of [createMockStyle], when it is given. *)
Inductive MockApi : Type :=
| MockBool (b : bool)
| MockNull
| MockError.            (* ['error']: the call rejects *)

Definition createMockStyle
    (id name : string) (isComboClassResult : option MockApi) : Style.t :=
  {| Style.id := js id;
     Style.getName := Resolved (Some (js name));
     Style.getProperties := fun _ => Resolved [];
     Style.isComboClass :=
       match isComboClassResult with
       | None => None
       | Some MockError => Some (Rejected (js "API error"))
       | Some (MockBool b) => Some (Resolved (SigBool b))
       | Some MockNull => Some (Resolved SigNull)
       end |}.

(** The custom function of ['custom-policy-preset']: it never throws. *)
Definition mockCustomPolicy
    (apiResult : Signal) (heuristicResult : bool) (className : jsstring)
  : Outcome bool :=
  mret (if startsWith className (js "is-api") then isTrue apiResult
        else heuristicResult).

(** A custom function that throws on every call, and a preset that
    selects it. *)
Definition throwingPolicy
    (apiResult : Signal) (heuristicResult : bool) (className : jsstring)
  : Outcome bool :=
  Rejected (js "policy failed").

Definition throwingPreset : Preset.t :=
  Preset.mk (js "throwing-preset") (Some (PolicyFn throwingPolicy)).

(** A registry whose current preset is that one. *)
Definition throwingRegistry : PresetRegistry :=
  {| getCurrentPreset := Resolved (js "throwing-preset");
     getPresetById := fun _ => Resolved (Some throwingPreset) |}.

(** The mock of [getPresetById]. *)
Definition mockPresetById (id : jsstring) : Outcome (option Preset.t) :=
  Resolved (Some
    (if decide (id = js "api-first-preset") then
       Preset.mk id (Some (PolicyName (js "api-first")))
     else if decide (id = js "api-only-preset") then
       Preset.mk id (Some (PolicyName (js "api-only")))
     else if decide (id = js "heuristic-only-preset") then
       Preset.mk id (Some (PolicyName (js "heuristic-only")))
     else if decide (id = js "custom-policy-preset") then
       Preset.mk id (Some (PolicyFn mockCustomPolicy))
     else Preset.mk id None)).

(** The registry once [getCurrentPreset] is mocked to return [current]. *)
Definition mockRegistry (current : string) : PresetRegistry :=
  {| getCurrentPreset := Resolved (js current);
     getPresetById := mockPresetById |}.

(** The styles the tests build, and the preset the service finds when
    [getCurrentPreset] is mocked to return [current]. *)
Definition styleWithError : Style.t :=
  createMockStyle "1" "is-error" (Some MockError).
Definition styleNoApi : Style.t := createMockStyle "2" "is-other" None.
Definition styleApiNull : Style.t :=
  createMockStyle "1" "is-combo" (Some MockNull).
Definition styleApiTrue : Style.t :=
  createMockStyle "1" "is-api-combo" (Some (MockBool true)).
Definition styleApiFalse : Style.t :=
  createMockStyle "1" "is-combo" (Some (MockBool false)).

Definition mockPreset (current : string) : option Preset.t :=
  currentPreset (mockRegistry current).

(** Detection on a mock style named [name], under the preset that the
    mocked registry gives for [current]. *)
Definition detectMock (current name : string) (api : option MockApi)
  : Outcome ComboDetectionResult :=
  detectComboClass (createMockStyle "1" name api) (js name)
                   (mockPreset current).

(** An element with the style ["card"] applied twice, around a combo. *)
Definition elementWithDuplicate : option Element.t :=
  Some (Element.mk (Some (Resolved (Some
    [createMockStyle "s1" " card " None;
     createMockStyle "s2" "is-active" (Some (MockBool true));
     createMockStyle "s1" " card " None])))).

(** ** The statements of the specification, in its words *)

(** "alphanumeric character" and "uppercase letter" of the heuristic:
    the ASCII letters and digits. *)
Definition code (a : ascii) : code_unit := N_of_ascii a.

Definition isUppercase (c : code_unit) : Prop :=
  code "A" <= c <= code "Z".

Definition isAlphanumeric (c : code_unit) : Prop :=
  code "A" <= c <= code "Z" \/ code "a" <= c <= code "z"
  \/ code "0" <= c <= code "9".

(** [s] starts with [prefix], immediately followed by a character that
    satisfies [P]. *)
Definition startsWithThen (prefix : string) (P : code_unit -> Prop)
    (s : jsstring) : Prop :=
  exists c rest, s = js prefix ++ c :: rest /\ P c.

Definition heuristicallyCombo (className : jsstring) : Prop :=
  startsWithThen "is-" isAlphanumeric className
  \/ startsWithThen "is_" isAlphanumeric className
  \/ startsWithThen "is" isUppercase className.

(** The external signal of a style: the value [apiResult] holds once
    lines 58-67 have run. *)
Definition externalSignal (style : Style.t) : Signal :=
  match Style.isComboClass style with
  | None => SigUndefined
  | Some (Resolved v) => v
  | Some (Rejected _) => SigNull
  end.

Definition hasApiMethod (style : Style.t) : bool :=
  match Style.isComboClass style with Some _ => true | None => false end.

(** The policy a preset selects, before the default is applied. *)
Definition policyOf (preset : option Preset.t) : option ComboDetectionPolicy :=
  preset ≫= Preset.comboDetectionPolicy.

(** The call of the policy that [detectComboClass] makes, when the
    policy is a custom function, returns. *)
Definition policyReturns
    (preset : option Preset.t) (style : Style.t) (className : jsstring)
  : Prop :=
  forall fn, policyOf preset = Some (PolicyFn fn) ->
    exists result,
      fn (externalSignal style) (heuristicResult className) className
      = Resolved result.

(** The applied-styles list of an element: what [getStyles] resolved
    to, and no style at all when there is no such list. *)
Definition appliedStylesOf (element : option Element.t) : list Style.t :=
  match element ≫= Element.getStyles with
  | Some (Resolved (Some appliedStyles)) => appliedStyles
  | _ => []
  end.

(** The loop of [getAppliedStyles] gets through its [try] block on
    [style]: [getName] resolves, and the detection, run on the trimmed
    name, does not reject. *)
Definition processes (preset : option Preset.t) (style : Style.t) : bool :=
  match Style.getName style with
  | Resolved name =>
      match detectComboClass style (trimmedNameOf name) preset with
      | Resolved _ => true
      | Rejected _ => false
      end
  | Rejected _ => false
  end.

(** Index [i] holds the first style of the list whose id is [id]. *)
Definition firstOccurrence
    (styles : list Style.t) (i : nat) (id : jsstring) : Prop :=
  (exists style, styles !! i = Some style /\ Style.id style = id)
  /\ forall j style', (j < i)%nat -> styles !! j = Some style' ->
                      Style.id style' <> id.

(** Index [i] holds the first style of the list whose id is [id] among
    those that the loop gets through. *)
Definition firstProcessedOccurrence
    (preset : option Preset.t)
    (styles : list Style.t) (i : nat) (id : jsstring) : Prop :=
  (exists style, styles !! i = Some style /\ Style.id style = id
                 /\ processes preset style = true)
  /\ forall j style', (j < i)%nat -> styles !! j = Some style' ->
                      Style.id style' = id -> processes preset style' = false.

(** Every entry of the result is ordered by an index that [position]
    relates to its id. *)
Definition orderedBy
    (position : list Style.t -> nat -> jsstring -> Prop)
    (styles : list Style.t) (result : list StyleInfo.t) : Prop :=
  forall info, info ∈ result ->
    exists i, StyleInfo.order info = Z.of_nat i
              /\ position styles i (StyleInfo.id info).

(** What the loop of [getAppliedStyles] maintains, after the styles
    [done] have been visited. *)
Record LoopInv (preset : option Preset.t)
    (done : list Style.t) (acc : Acc) : Prop := mkLoopInv {
  inv_seen : forall x,
    x ∈ seenIds acc <->
    x <> [] /\ exists j s, done !! j = Some s /\ Style.id s = x
                           /\ processes preset s = true;
  inv_first :
    orderedBy (firstProcessedOccurrence preset) done (uniqueStyles acc);
  inv_nodup : NoDup (StyleInfo.id <$> uniqueStyles acc);
  inv_ids : forall x,
    x ∈ seenIds acc <-> x ∈ (StyleInfo.id <$> uniqueStyles acc);
}.

(** An element whose first style fails to give its name, followed by a
    second style object with the same id. *)
Definition unnamedStyle : Style.t :=
  {| Style.id := js "a";
     Style.getName := Rejected (js "no name");
     Style.getProperties := fun _ => Resolved [];
     Style.isComboClass := None |}.

Definition elementWithUnnamedFirst : option Element.t :=
  Some (Element.mk (Some (Resolved (Some
    [unnamedStyle; createMockStyle "a" "is-active" None])))).

(** [a] may stay in front of [b]: the comparator does not ask for a
    swap. *)
Definition before (a b : StyleInfo.t) : Prop :=
  (compareStyles a b <= 0)%Z.

(** An array in a store, to sort: the entries of four applied styles. *)
Definition entry (id : string) (order : Z) (isCombo : bool) : StyleInfo.t :=
  StyleInfo.mk (js id) (js id) [] order isCombo SrcHeuristic.

Definition fourEntries : list StyleInfo.t :=
  [entry "is-open" 3 true; entry "card" 2 false;
   entry "is-big" 1 true; entry "u-pad" 0 false].

(** ** The rest of the style service *)

(** [Promise.all]: the values, in the order of the promises, when all of
    them resolve. The service only passes promises that cannot reject;
    for the others the model reports the rejection of the first one in
    the array. *)
Fixpoint promiseAll {A} (promises : list (Outcome A)) : Outcome (list A) :=
  match promises with
  | [] => mret []
  | p :: rest => a ← p; others ← promiseAll rest; mret (a :: others)
  end.

(** *** [getAppliedClassNames] *)

(** The callback of [styles.map], lines 267-275. *)
Definition classNameOf (s : Style.t) : Outcome jsstring :=
  try_catch (n ← Style.getName s; mret (trimmedNameOf n))
            (fun _ => mret []).

(** The loop of lines 277-283, on the names still to visit. *)
Fixpoint dedupeNames
    (names : list jsstring) (seen : gset jsstring) (deduped : list jsstring)
  : list jsstring :=
  match names with
  | [] => deduped
  | n :: rest =>
      if truthy n && negb (bool_decide (n ∈ seen))
      then dedupeNames rest ({[ n ]} ∪ seen) (deduped ++ [n])
      else dedupeNames rest seen deduped
  end.

Definition getAppliedClassNames (element : option Element.t)
  : Outcome (list jsstring) :=
  match element ≫= Element.getStyles with
  | None => mret []
  | Some call =>
      match call with
      | Rejected _ => mret []
      | Resolved None | Resolved (Some []) => mret []
      | Resolved (Some styles) =>
          names ← promiseAll (classNameOf <$> styles);
          mret (dedupeNames names ∅ [])
      end
  end.

(** *** [getAllStylesWithProperties] *)

(** The object built for one site style, lines 141-158: the fields of a
    [StyleInfo] except [order], and the index in [webflow.getAllStyles()]. *)
Module Extracted.
Record t : Type := mk {
  id : jsstring;
  name : jsstring;
  properties : Props;
  index : Z;
  isCombo : bool;
  comboDetectionSource : ComboDetectionSource;
}.
End Extracted.

(** [{ ...style, order: index }], lines 166-169. *)
Module SiteStyle.
Record t : Type := mk {
  extracted : Extracted.t;
  order : Z;
}.
End SiteStyle.

(** [name || ""] *)
Definition nameOrEmpty (name : option jsstring) : jsstring :=
  match name with
  | Some n => n
  | None => []
  end.

(** The callback of [allStyles.map], lines 123-160. *)
Definition extractStyle
    (preset : option Preset.t) (index : nat) (style : Style.t)
  : Outcome Extracted.t :=
  try_catch
    (name ← Style.getName style;
     comboDetection ← detectComboClass style (nameOrEmpty name) preset;
     let isCombo := isCombo comboDetection in
     let comboDetectionSource := source comboDetection in
     let properties :=
       if truthy (nameOrEmpty name) && startsWith (nameOrEmpty name) (js "u-")
       then try_assign [] (Style.getProperties style (js "main"))
       else [] in
     mret (Extracted.mk (Style.id style) (trimmedNameOf name) properties
                        (Z.of_nat index) isCombo comboDetectionSource))
    (fun _ =>
     mret (Extracted.mk (Style.id style) [] [] (Z.of_nat index)
                        false SrcHeuristic)).

(** The [webflow] global. *)
Record Webflow : Type := mkWebflow {
  getAllStyles : Outcome (list Style.t);
}.

(** The body of the async function of lines 107-170. *)
Definition fetchAllStyles (webflow : Webflow) (registry : PresetRegistry)
  : Outcome (list SiteStyle.t) :=
  allStyles ← getAllStyles webflow;
  let currentPreset := currentPreset registry in
  allStylesWithProperties ←
    promiseAll (imap (extractStyle currentPreset) allStyles);
  let validStyles :=
    filter (fun style => truthy (Extracted.name style))
           allStylesWithProperties in
  mret (imap (fun index style => SiteStyle.mk style (Z.of_nat index))
             validStyles).

(** [cachedAllStylesPromise]: the module-level variable, [None] for
    [null]; a promise is given by its outcome. *)
Abbreviation Cache := (option (Outcome (list SiteStyle.t))).

(** The new value of the cache, and the promise returned. *)
Definition getAllStylesWithProperties
    (webflow : Webflow) (registry : PresetRegistry) (cache : Cache)
  : Cache * Outcome (list SiteStyle.t) :=
  match cache with
  | Some promise => (cache, promise)
  | None =>
      let promise := fetchAllStyles webflow registry in
      (Some promise, promise)
  end.

Definition resetStyleServiceCache (cache : Cache) : Cache := None.

(** *** [getAppliedStylesWithElementId] *)

(** The element handle with its [id] property ([None]: no such
    property). *)
Module IdentifiedElement.
Record t : Type := mk {
  id : option jsstring;
  handle : Element.t;
}.
End IdentifiedElement.

Module StyleWithElement.
Record t : Type := mk {
  info : StyleInfo.t;
  elementId : option jsstring;
}.
End StyleWithElement.

(** Reading [element.id]: a [TypeError] when [element] is [null] or
    [undefined]. *)
Definition elementIdOf (element : option IdentifiedElement.t)
  : Outcome (option jsstring) :=
  match element with
  | Some e => Resolved (IdentifiedElement.id e)
  | None => Rejected (js "TypeError")
  end.

(** [styles.map(f)] for a callback that may throw: nothing is called on
    an empty array. *)
Fixpoint mapThrowing {A B} (f : A -> Outcome B) (l : list A)
  : Outcome (list B) :=
  match l with
  | [] => mret []
  | a :: rest => b ← f a; others ← mapThrowing f rest; mret (b :: others)
  end.

Definition getAppliedStylesWithElementId
    (registry : PresetRegistry) (element : option IdentifiedElement.t)
  : Outcome (list StyleWithElement.t) :=
  styles ← getAppliedStyles registry (IdentifiedElement.handle <$> element);
  mapThrowing
    (fun style => id ← elementIdOf element;
                  mret (StyleWithElement.mk style id))
    styles.

(** ** Statements about the rest of the code *)

(** [s] starts with the literal [lit], and the next code unit is in the
    class [a]. *)
Definition litThenClass (lit : string) (a : atom) (s : jsstring) : bool :=
  match afterLit (js lit) s with
  | Some (c :: _) => accepts a c
  | _ => false
  end.

(** [info] is the entry that [getAppliedStyles] builds from [style],
    found at index [i] of the applied styles. *)
Definition builtFrom
    (preset : option Preset.t) (i : nat) (style : Style.t)
    (info : StyleInfo.t) : Prop :=
  exists name,
    Style.getName style = Resolved name
    /\ StyleInfo.id info = Style.id style
    /\ StyleInfo.name info = trimmedNameOf name
    /\ StyleInfo.order info = Z.of_nat i
    /\ StyleInfo.properties info
       = (if startsWith (trimmedNameOf name) (js "u-")
          then try_assign [] (Style.getProperties style (js "main"))
          else [])
    /\ detectComboClass style (trimmedNameOf name) preset
       = Resolved (mkResult (StyleInfo.isCombo info)
                            (StyleInfo.comboDetectionSource info)).

(** Everything of an entry but the outcome of the combo detection. *)
Definition shape (info : StyleInfo.t) : jsstring * jsstring * Props * Z :=
  (StyleInfo.id info, StyleInfo.name info, StyleInfo.properties info,
   StyleInfo.order info).

Definition orderBelow (a b : StyleInfo.t) : Prop :=
  (StyleInfo.order a < StyleInfo.order b)%Z.

(** The class name that [getAppliedClassNames] reads off a style: its
    trimmed name, and the empty string when [getName] fails. *)
Definition trimmedClassName (style : Style.t) : jsstring :=
  match Style.getName style with
  | Resolved name => trimmedNameOf name
  | Rejected _ => []
  end.

(** An element whose [getStyles] resolves to [styles]. *)
Definition elementWith (styles : list Style.t) : option Element.t :=
  Some (Element.mk (Some (Resolved (Some styles)))).

(** [e] is the object that [getAllStylesWithProperties] extracts from
    [style], found at index [i] of [webflow.getAllStyles()], when its
    name can be read. *)
Definition extractedFrom
    (preset : option Preset.t) (i : nat) (style : Style.t)
    (e : Extracted.t) : Prop :=
  exists name,
    Style.getName style = Resolved name
    /\ Extracted.id e = Style.id style
    /\ Extracted.name e = trimmedNameOf name
    /\ Extracted.index e = Z.of_nat i
    /\ Extracted.properties e
       = (if truthy (nameOrEmpty name)
             && startsWith (nameOrEmpty name) (js "u-")
          then try_assign [] (Style.getProperties style (js "main"))
          else [])
    /\ detectComboClass style (nameOrEmpty name) preset
       = Resolved (mkResult (Extracted.isCombo e)
                            (Extracted.comboDetectionSource e)).

Definition indexBelow (a b : Extracted.t) : Prop :=
  (Extracted.index a < Extracted.index b)%Z.

(** A site with four styles: a name with a leading space, an empty name,
    a style that does not give its name, and a utility class. *)
Definition fourStyles : list Style.t :=
  [createMockStyle "1" " is-active" None;
   createMockStyle "2" "" None;
   unnamedStyle;
   createMockStyle "3" "u-pad " None].

Definition siteOfFour : Webflow := mkWebflow (Resolved fourStyles).

(** The two entries that the fetch gives for it. *)
Definition firstOfFour : SiteStyle.t :=
  SiteStyle.mk
    (Extracted.mk (js "1") (js "is-active") [] 0 false SrcHeuristic) 0.

Definition siteOfFourStyles : list SiteStyle.t :=
  [firstOfFour;
   SiteStyle.mk
     (Extracted.mk (js "3") (js "u-pad") [] 3 false SrcHeuristic) 1].

Definition isPlain (info : StyleInfo.t) : Prop :=
  StyleInfo.isCombo info = false.

Definition isComboEntry (info : StyleInfo.t) : Prop :=
  StyleInfo.isCombo info = true.

(** Entries as [getAppliedStyles] orders them: by index. *)
Definition appliedEntries : list StyleInfo.t :=
  [entry "card" 0 false; entry "is-open" 1 true;
   entry "u-pad" 2 false; entry "is-big" 3 true].

(** The element can be scanned: there is one, and it has [getStyles]. *)
Definition scannable {R C} (el : option (SelectedElement R C)) : bool :=
  match el with
  | Some e => hasGetStyles e
  | None => false
  end.

(** A store that shows the error of an earlier run, and a window in
    which nothing is selected. *)
Definition staleState : LintState.t unit unit :=
  LintState.mk [tt] [] [js "card"] [] false (Some (js "boom")).

Definition windowWithoutSelection : Window unit unit :=
  mkWindow (Returned tt) (Some (mkDesigner (Some (Returned None)))).

(** A selected element whose scan succeeds, and the window that has it
    selected. *)
Definition scannedElement : SelectedElement unit unit :=
  mkSelected true
    (Returned (Meta.mk [tt; tt] (Some [js "card"]) None
                       (Some [ElementRole.container]))).

Definition windowWithSelection : Window unit unit :=
  mkWindow (Returned tt)
           (Some (mkDesigner (Some (Returned (Some scannedElement))))).

(** The lookup of lines 198-204 yields no preset: [getCurrentPreset]
    throws, or [getPresetById] throws or knows no such preset. *)
Definition presetLookupFails (registry : PresetRegistry) : Prop :=
  (exists err, getCurrentPreset registry = Rejected err)
  \/ exists id, getCurrentPreset registry = Resolved id
                /\ ((exists err, getPresetById registry id = Rejected err)
                    \/ getPresetById registry id = Resolved None).

(** A registry whose [getCurrentPreset] throws. *)
Definition brokenRegistry : PresetRegistry :=
  {| getCurrentPreset := Rejected (js "not initialised");
     getPresetById := mockPresetById |}.

(** * Properties *)

(** ** The regular-expression matcher *)

Section Matcher.
Implicit Types (s l rest : jsstring) (k : jsstring -> bool).

Lemma afterLit_spec l s rest : afterLit l s = Some rest <-> s = l ++ rest.
Proof.
  revert s; induction l as [|p l IH]; intros [|c s]; simpl.
  - split; congruence.
  - split; congruence.
  - split; discriminate.
  - destruct (N.eqb_spec c p) as [->|Hne].
    + rewrite IH. split; congruence.
    + split; [discriminate | congruence].
Qed.

Lemma rmatch_Seq r1 r2 s k :
  rmatch (Seq r1 r2) s k = rmatch r1 s (fun s' => rmatch r2 s' k).
Proof. reflexivity. Qed.

Lemma rmatch_Alt r1 r2 s k :
  rmatch (Alt r1 r2) s k = rmatch r1 s k || rmatch r2 s k.
Proof. reflexivity. Qed.

Lemma rmatch_Lit lit s k :
  rmatch (Lit lit) s k = true <->
  exists rest, s = js lit ++ rest /\ k rest = true.
Proof.
  simpl. destruct (afterLit (js lit) s) as [rest|] eqn:E.
  - apply afterLit_spec in E. split.
    + eauto.
    + intros (rest' & Heq & Hk). subst s.
      apply app_inv_head in Heq. congruence.
  - split; [discriminate|]. intros (rest & Heq & _).
    apply afterLit_spec in Heq. congruence.
Qed.

Lemma rmatch_One a s k :
  rmatch (One a) s k = true <->
  exists c rest, s = c :: rest /\ accepts a c = true /\ k rest = true.
Proof.
  destruct s as [|c s]; simpl.
  - split; [discriminate | intros (? & ? & ? & _); discriminate].
  - rewrite andb_true_iff. split.
    + intros []. eauto.
    + intros (? & ? & [= <- <-] & ? & ?). auto.
Qed.

(** [.*] never fails: in the worst case it matches nothing. *)
Lemma star_total a s k : (forall s', k s' = true) -> star a s k = true.
Proof.
  intros Hk. induction s as [|c s IH]; simpl; [apply Hk|].
  destruct (accepts a c); [rewrite IH; reflexivity | apply Hk].
Qed.

Lemma accepts_alnum c : accepts alnumClass c = true <-> isAlphanumeric c.
Proof.
  unfold isAlphanumeric, code, alnumClass, accepts, existsb, inRange.
  cbn [fst snd].
  rewrite !orb_true_iff, !andb_true_iff, !N.leb_le.
  split; [intros [H|[H|[H|H]]]; auto; discriminate H | tauto].
Qed.

Lemma accepts_upper c : accepts upperClass c = true <-> isUppercase c.
Proof.
  unfold isUppercase, code, upperClass, accepts, existsb, inRange.
  cbn [fst snd].
  rewrite orb_false_r, andb_true_iff, !N.leb_le. reflexivity.
Qed.

(** A literal followed by one class character, then anything. *)
Lemma rmatch_prefix_class lit a (P : code_unit -> Prop) s :
  (forall c, accepts a c = true <-> P c) ->
  rmatch (Seq (Lit lit) (One a)) s (fun s' => star Dot s' (fun _ => true))
    = true <-> startsWithThen lit P s.
Proof.
  intros HP. rewrite rmatch_Seq, rmatch_Lit. unfold startsWithThen.
  split.
  - intros (rest & -> & Hone). apply rmatch_One in Hone.
    destruct Hone as (c & rest' & -> & Hc & _). apply HP in Hc. eauto.
  - intros (c & rest & -> & Hc). exists (c :: rest). split; [reflexivity|].
    apply rmatch_One. exists c, rest. apply HP in Hc.
    split; [|split]; auto using star_total.
Qed.
End Matcher.

(** C2. The heuristic holds of a class name exactly when the name starts
    with [is-] or [is_] followed by an alphanumeric character, or with
    [is] followed by an uppercase letter; the seven cases of the
    specification evaluate as it lists them. *)
Theorem heuristicResult_spec :
  (forall className,
      heuristicResult className = true <-> heuristicallyCombo className)
  /\ heuristicResult (js "is-active") = true
  /\ heuristicResult (js "is_visible") = true
  /\ heuristicResult (js "isActive") = true
  /\ heuristicResult (js "is-1234") = true
  /\ heuristicResult (js "is-") = false
  /\ heuristicResult (js "is1234") = false
  /\ heuristicResult (js "component-card") = false.
Proof.
  split; [|repeat split; reflexivity].
  intros className. unfold heuristicResult, test, comboPattern, heuristicallyCombo.
  rewrite rmatch_Seq, !rmatch_Alt, !orb_true_iff.
  change (rmatch (Star Dot)) with (star Dot).
  rewrite <- (rmatch_prefix_class "is-" alnumClass isAlphanumeric className accepts_alnum).
  rewrite <- (rmatch_prefix_class "is_" alnumClass isAlphanumeric className accepts_alnum).
  rewrite <- (rmatch_prefix_class "is" upperClass isUppercase className accepts_upper).
  reflexivity.
Qed.

(** ** [detectComboClass] under each policy *)

(** Runs lines 58-67 symbolically: one case per way the API call ends
    (resolved, rejected, method absent). *)
Ltac fetch_signal style :=
  unfold detectComboClass, externalSignal, hasApiMethod, policyOf in *;
  destruct (Style.isComboClass style) as [[?v|?e]|]; simpl in *.

(** The policy hypothesis [H] decides the dispatch of lines 70-96. *)
Ltac select_policy H :=
  match type of H with
  | _ = Some _ => rewrite H; simpl
  | _ = None => rewrite H; simpl
  end;
  repeat case_decide; simplify_eq; try done.

Section Detect.
Variables (style : Style.t) (className : jsstring).
Variable preset : option Preset.t.

(** C1, as the code has it. Under ['api-only'], [isCombo] is true
    exactly when the external signal is the boolean [true], and
    [source] is ["api"] exactly when the style has an [isComboClass]
    method (whether the call resolved, resolved to [null] or
    rejected), and ["policy"] when it has none. *)
Theorem api_only_result :
  policyOf preset = Some (PolicyName (js "api-only")) ->
  detectComboClass style className preset
  = Resolved {| isCombo := isTrue (externalSignal style);
                source := if hasApiMethod style then SrcApi else SrcPolicy |}
  /\ (isTrue (externalSignal style) = true
      <-> externalSignal style = SigBool true).
Proof.
  intros Hpolicy. split.
  - fetch_signal style; select_policy Hpolicy.
  - destruct (externalSignal style) as [[]| |]; simpl; split; congruence.
Qed.

(** C3. Under ['api-first'], and under any policy string that is not
    one of the other two names, a signal that is neither [null] nor
    [undefined] is the result, with source ["api"]; otherwise the
    heuristic is, with source ["heuristic"]. *)
Theorem api_first_result (name : jsstring) :
  policyOf preset = Some (PolicyName name) ->
  name <> js "api-only" ->
  name <> js "heuristic-only" ->
  (forall b, externalSignal style = SigBool b ->
     detectComboClass style className preset
     = Resolved {| isCombo := b; source := SrcApi |})
  /\ (externalSignal style = SigNull \/ externalSignal style = SigUndefined ->
     detectComboClass style className preset
     = Resolved {| isCombo := heuristicResult className;
                   source := SrcHeuristic |}).
Proof.
  intros Hpolicy Hne1 Hne2. split.
  - intros b Hb. fetch_signal style; select_policy Hpolicy.
  - intros Hsig. fetch_signal style; select_policy Hpolicy;
      destruct Hsig; simplify_eq; done.
Qed.

(** C4. A custom policy function is applied to the external signal,
    the heuristic result and the class name, in that order; what it
    returns is [isCombo], and [source] is ["policy"]. (When the call
    throws instead, [detectComboClass] rejects with what was thrown.) *)
Theorem custom_policy_result
    (fn : Signal -> bool -> jsstring -> Outcome bool) :
  policyOf preset = Some (PolicyFn fn) ->
  (forall result,
     fn (externalSignal style) (heuristicResult className) className
     = Resolved result ->
     detectComboClass style className preset
     = Resolved {| isCombo := result; source := SrcPolicy |})
  /\ (forall error,
       fn (externalSignal style) (heuristicResult className) className
       = Rejected error ->
       detectComboClass style className preset = Rejected error).
Proof.
  intros Hpolicy.
  split; intros r Hcall; fetch_signal style; rewrite Hpolicy; simpl;
    now rewrite Hcall.
Qed.

(** C5. Under ['heuristic-only'] the result is the heuristic with
    source ["heuristic"], whatever the style's API does. *)
Theorem heuristic_only_result :
  policyOf preset = Some (PolicyName (js "heuristic-only")) ->
  detectComboClass style className preset
  = Resolved {| isCombo := heuristicResult className;
                source := SrcHeuristic |}.
Proof.
  intros Hpolicy. fetch_signal style; select_policy Hpolicy.
Qed.

End Detect.

(** C1 as stated fails when the call rejects: the style of the test
    ['falls back to heuristic when API throws error'], under the
    ['api-only'] preset, is reported with source ["api"], not
    ["policy"]. *)
Lemma api_only_rejected_call_reports_api :
  Style.isComboClass styleWithError = Some (Rejected (js "API error"))
  /\ policyOf (mockPreset "api-only-preset") = Some (PolicyName (js "api-only"))
  /\ detectComboClass styleWithError (js "is-error") (mockPreset "api-only-preset")
     = Resolved {| isCombo := false; source := SrcApi |}
  /\ ~ (exists r,
          detectComboClass styleWithError (js "is-error")
                           (mockPreset "api-only-preset") = Resolved r
          /\ source r = SrcPolicy).
Proof.
  repeat split; try reflexivity.
  intros (r & Hr & Hsrc). vm_compute in Hr.
  injection Hr as <-. discriminate Hsrc.
Qed.

(** [api_only_result] on the style without the API method, the second
    style of the test ['only uses API results, ...']. *)
Lemma api_only_result_witness :
  policyOf (mockPreset "api-only-preset") = Some (PolicyName (js "api-only"))
  /\ detectComboClass styleNoApi (js "is-other") (mockPreset "api-only-preset")
     = Resolved {| isCombo := isTrue (externalSignal styleNoApi);
                   source := if hasApiMethod styleNoApi
                             then SrcApi else SrcPolicy |}
  /\ (isTrue (externalSignal styleNoApi) = true
      <-> externalSignal styleNoApi = SigBool true).
Proof.
  split; [reflexivity|].
  apply api_only_result. reflexivity.
Defined.

(** [api_first_result] on the style of the test ['falls back to
    heuristic when API returns null']. *)
Lemma api_first_result_witness :
  policyOf (mockPreset "api-first-preset") = Some (PolicyName (js "api-first"))
  /\ js "api-first" <> js "api-only"
  /\ js "api-first" <> js "heuristic-only"
  /\ (forall b, externalSignal styleApiNull = SigBool b ->
        detectComboClass styleApiNull (js "is-combo")
                         (mockPreset "api-first-preset")
        = Resolved {| isCombo := b; source := SrcApi |})
  /\ (externalSignal styleApiNull = SigNull
      \/ externalSignal styleApiNull = SigUndefined ->
        detectComboClass styleApiNull (js "is-combo")
                         (mockPreset "api-first-preset")
        = Resolved {| isCombo := heuristicResult (js "is-combo");
                      source := SrcHeuristic |}).
Proof.
  assert (H1 : js "api-first" <> js "api-only") by (vm_compute; discriminate).
  assert (H2 : js "api-first" <> js "heuristic-only")
    by (vm_compute; discriminate).
  split; [reflexivity|]. split; [exact H1|]. split; [exact H2|].
  apply (api_first_result _ _ _ (js "api-first"));
    [reflexivity | exact H1 | exact H2].
Defined.

(** [custom_policy_result] on the first style of the test ['uses custom
    function for combo detection']. *)
Lemma custom_policy_result_witness :
  policyOf (mockPreset "custom-policy-preset") = Some (PolicyFn mockCustomPolicy)
  /\ (forall result,
        mockCustomPolicy (externalSignal styleApiTrue)
          (heuristicResult (js "is-api-combo")) (js "is-api-combo")
        = Resolved result ->
        detectComboClass styleApiTrue (js "is-api-combo")
                         (mockPreset "custom-policy-preset")
        = Resolved {| isCombo := result; source := SrcPolicy |})
  /\ (forall error,
        mockCustomPolicy (externalSignal styleApiTrue)
          (heuristicResult (js "is-api-combo")) (js "is-api-combo")
        = Rejected error ->
        detectComboClass styleApiTrue (js "is-api-combo")
                         (mockPreset "custom-policy-preset")
        = Rejected error).
Proof.
  split; [reflexivity|].
  apply custom_policy_result. reflexivity.
Defined.

(** [heuristic_only_result] on the style of the test ['always uses
    heuristic, ignores API']. *)
Lemma heuristic_only_result_witness :
  policyOf (mockPreset "heuristic-only-preset")
  = Some (PolicyName (js "heuristic-only"))
  /\ detectComboClass styleApiFalse (js "is-combo")
                      (mockPreset "heuristic-only-preset")
     = Resolved {| isCombo := heuristicResult (js "is-combo");
                   source := SrcHeuristic |}.
Proof.
  split; [reflexivity|].
  apply heuristic_only_result. reflexivity.
Defined.

(** ** Failure of the API call, the default policy, determinism *)

(** The one call of [detectComboClass] that can make it reject is the
    call of a custom policy function: the awaited API call sits in the
    [try] block, and every other branch of the dispatch returns. *)
Lemma detectComboClass_outcome
    (style : Style.t) (className : jsstring) (preset : option Preset.t) :
  (exists result, detectComboClass style className preset = Resolved result)
  \/ (exists fn error,
        policyOf preset = Some (PolicyFn fn)
        /\ fn (externalSignal style) (heuristicResult className) className
           = Rejected error
        /\ detectComboClass style className preset = Rejected error).
Proof.
  unfold detectComboClass, externalSignal, policyOf.
  destruct (preset ≫= Preset.comboDetectionPolicy) as [[name|fn]|]; simpl.
  - left. destruct (Style.isComboClass style) as [[[]|err]|]; simpl;
      repeat case_decide; eauto.
  - destruct (Style.isComboClass style) as [[v|err]|]; simpl;
      match goal with
      | |- context [fn ?a ?h ?c] =>
          destruct (fn a h c) as [b|e] eqn:Hcall; simpl; eauto 8
      end.
  - left. destruct (Style.isComboClass style) as [[[]|err]|]; simpl;
      repeat case_decide; eauto.
Qed.

Lemma detectComboClass_resolves
    (style : Style.t) (className : jsstring) (preset : option Preset.t) :
  policyReturns preset style className ->
  exists result, detectComboClass style className preset = Resolved result.
Proof.
  intros Hreturns.
  destruct (detectComboClass_outcome style className preset)
    as [Hres|(fn & error & Hpolicy & Hcall & _)]; [exact Hres|].
  destruct (Hreturns fn Hpolicy) as [b Hb]. congruence.
Qed.

(** C6 as stated fails for a custom policy that throws: the call of the
    policy is not in a [try] block, and [detectComboClass] rejects. *)
Lemma throwing_policy_rejects :
  policyOf (Some throwingPreset) = Some (PolicyFn throwingPolicy)
  /\ detectComboClass styleApiTrue (js "is-api-combo") (Some throwingPreset)
     = Rejected (js "policy failed")
  /\ ~ (exists result,
          detectComboClass styleApiTrue (js "is-api-combo")
                           (Some throwingPreset) = Resolved result).
Proof.
  split; [reflexivity|]. split; [reflexivity|].
  intros [result Hres]. discriminate Hres.
Qed.

(** C6, as the code has it. A failure of the [isComboClass] call never
    escapes: a style whose call rejects is treated exactly as the same
    style with the call resolving to [null], and its external signal is
    [null]. [detectComboClass] resolves for every style, class name and
    preset, except when the policy is a custom function whose call
    throws: then, and only then, it rejects, with what was thrown. *)
Theorem detectComboClass_rejects_only_by_policy
    (style : Style.t) (className : jsstring) (preset : option Preset.t) :
  ((exists result, detectComboClass style className preset = Resolved result)
   \/ (exists fn error,
         policyOf preset = Some (PolicyFn fn)
         /\ fn (externalSignal style) (heuristicResult className) className
            = Rejected error
         /\ detectComboClass style className preset = Rejected error))
  /\ (forall id getName getProperties error,
        detectComboClass
          (Style.mk id getName getProperties (Some (Rejected error)))
          className preset
        = detectComboClass
            (Style.mk id getName getProperties (Some (Resolved SigNull)))
            className preset)
  /\ (forall id getName getProperties error,
        externalSignal
          (Style.mk id getName getProperties (Some (Rejected error)))
        = SigNull).
Proof.
  split; [|split].
  - apply detectComboClass_outcome.
  - reflexivity.
  - reflexivity.
Qed.

(** C7. With no preset, or with a preset that defines no policy,
    detection is what it is under a preset whose policy is
    ['api-first']. *)
Theorem missing_policy_is_api_first
    (style : Style.t) (className : jsstring)
    (preset : option Preset.t) (apiFirst : Preset.t) :
  preset = None
  \/ (exists p, preset = Some p /\ Preset.comboDetectionPolicy p = None) ->
  Preset.comboDetectionPolicy apiFirst = Some (PolicyName (js "api-first")) ->
  detectComboClass style className preset
  = detectComboClass style className (Some apiFirst).
Proof.
  intros Hmissing Hfirst.
  assert (Hnone : policyOf preset = None).
  { destruct Hmissing as [->|(p & -> & Hp)]; [reflexivity | exact Hp]. }
  unfold detectComboClass. fold (policyOf preset). rewrite Hnone.
  simpl. rewrite Hfirst. reflexivity.
Qed.

(** [missing_policy_is_api_first] on the preset without a policy that
    the mocked registry returns for an id it does not know. *)
Lemma missing_policy_is_api_first_witness :
  (mockPreset "default-preset" = None
   \/ (exists p, mockPreset "default-preset" = Some p
                 /\ Preset.comboDetectionPolicy p = None))
  /\ Preset.comboDetectionPolicy
       (Preset.mk (js "api-first-preset") (Some (PolicyName (js "api-first"))))
     = Some (PolicyName (js "api-first"))
  /\ detectComboClass styleApiTrue (js "is-combo") (mockPreset "default-preset")
     = detectComboClass styleApiTrue (js "is-combo")
         (Some (Preset.mk (js "api-first-preset")
                          (Some (PolicyName (js "api-first"))))).
Proof.
  assert (H : mockPreset "default-preset" = None
              \/ (exists p, mockPreset "default-preset" = Some p
                            /\ Preset.comboDetectionPolicy p = None)).
  { right. exists (Preset.mk (js "default-preset") None).
    split; reflexivity. }
  split; [exact H|]. split; [reflexivity|].
  apply missing_policy_is_api_first; [exact H | reflexivity].
Defined.

(** C8. Once the signal is a boolean or [null], the result is a function
    of the signal, the class name and the policy alone: two evaluations
    that agree on these three, on whatever style objects and presets,
    have the same outcome, and resolve to the same result whenever the
    policy, if it is a custom function, returns. *)
Theorem detectComboClass_deterministic
    (style1 style2 : Style.t) (className : jsstring)
    (preset1 preset2 : option Preset.t) :
  externalSignal style1 = externalSignal style2 ->
  externalSignal style1 <> SigUndefined ->
  policyOf preset1 = policyOf preset2 ->
  detectComboClass style1 className preset1
  = detectComboClass style2 className preset2
  /\ (policyReturns preset1 style1 className ->
      exists result,
        detectComboClass style1 className preset1 = Resolved result
        /\ detectComboClass style2 className preset2 = Resolved result).
Proof.
  intros Hsig Hdef Hpolicy.
  assert (Hsame : detectComboClass style1 className preset1
                  = detectComboClass style2 className preset2).
  { unfold detectComboClass, externalSignal, policyOf in *.
    rewrite <- Hpolicy.
    destruct (Style.isComboClass style1) as [[v1|e1]|],
             (Style.isComboClass style2) as [[v2|e2]|];
      simpl in *; subst; try reflexivity; congruence. }
  split; [exact Hsame|]. intros Hreturns.
  destruct (detectComboClass_resolves style1 className preset1 Hreturns)
    as [result Hres].
  exists result. split; [exact Hres|]. now rewrite <- Hsame.
Qed.

(** [detectComboClass_deterministic] on a style whose call rejects and
    one whose call resolves to [null], under two presets with the same
    policy. *)
Lemma detectComboClass_deterministic_witness :
  externalSignal styleWithError = externalSignal styleApiNull
  /\ externalSignal styleWithError <> SigUndefined
  /\ policyOf (mockPreset "api-only-preset")
     = policyOf (Some (Preset.mk (js "other") (Some (PolicyName (js "api-only")))))
  /\ detectComboClass styleWithError (js "is-combo")
                      (mockPreset "api-only-preset")
     = detectComboClass styleApiNull (js "is-combo")
         (Some (Preset.mk (js "other") (Some (PolicyName (js "api-only")))))
  /\ (policyReturns (mockPreset "api-only-preset") styleWithError
                    (js "is-combo") ->
      exists result,
        detectComboClass styleWithError (js "is-combo")
                         (mockPreset "api-only-preset") = Resolved result
        /\ detectComboClass styleApiNull (js "is-combo")
             (Some (Preset.mk (js "other")
                              (Some (PolicyName (js "api-only")))))
           = Resolved result).
Proof.
  assert (H : externalSignal styleWithError <> SigUndefined)
    by (vm_compute; discriminate).
  split; [reflexivity|]. split; [exact H|]. split; [reflexivity|].
  apply detectComboClass_deterministic; [reflexivity | exact H | reflexivity].
Defined.

(** ** [getAppliedStyles]: one entry per id *)

Section AppliedStyles.
Variable preset : option Preset.t.
Implicit Types (style : Style.t) (acc : Acc) (done rest : list Style.t).

Lemma truthy_nonempty (x : jsstring) : truthy x = true <-> x <> [].
Proof. destruct x; simpl; split; congruence. Qed.

(** One iteration either appends an entry for an id not seen so far,
    or leaves the accumulators as they were. *)
Lemma iteration_cases i style acc :
  let acc' := try_assign acc (processStyle preset i style acc) in
  (processes preset style = true /\ Style.id style <> []
   /\ (Style.id style ∉ seenIds acc)
   /\ exists info,
        StyleInfo.id info = Style.id style
        /\ StyleInfo.order info = Z.of_nat i
        /\ acc' = mkAcc ({[ Style.id style ]} ∪ seenIds acc)
                        (uniqueStyles acc ++ [info]))
  \/ ((processes preset style = false \/ Style.id style = []
       \/ Style.id style ∈ seenIds acc)
      /\ acc' = acc).
Proof.
  unfold processStyle, processes.
  destruct (Style.getName style) as [name|err]; simpl; [|right; auto].
  destruct (detectComboClass style (trimmedNameOf name) preset)
    as [detection|err]; simpl; [|right; auto].
  destruct (truthy (Style.id style)) eqn:Hid; simpl.
  - apply truthy_nonempty in Hid.
    case_bool_decide as Hseen; simpl; [right; auto|].
    left. repeat split; auto. eexists. repeat split; reflexivity.
  - right. split; [|reflexivity]. right; left.
    destruct (Style.id style); [reflexivity | discriminate].
Qed.

Lemma firstProcessedOccurrence_app done rest i x :
  firstProcessedOccurrence preset done i x -> firstProcessedOccurrence preset (done ++ rest) i x.
Proof.
  intros [(style & Hi & Hid & Hname) Hbefore].
  pose proof (lookup_lt_Some _ _ _ Hi) as Hlt. split.
  - exists style. rewrite lookup_app_l by assumption. auto.
  - intros j style' Hj. rewrite lookup_app_l by lia. eauto.
Qed.

Lemma LoopInv_nil : LoopInv preset [] (mkAcc ∅ []).
Proof.
  split; simpl.
  - intros x. split; [set_solver|].
    intros (_ & j & s & Hj & _). destruct j; discriminate.
  - intros info Hin. inversion Hin.
  - constructor.
  - set_solver.
Qed.

Lemma LoopInv_step done style acc :
  LoopInv preset done acc ->
  LoopInv preset (done ++ [style])
          (try_assign acc (processStyle preset (length done) style acc)).
Proof.
  intros [Hseen Hfirst Hnodup Hids].
  destruct (iteration_cases (length done) style acc)
    as [(Hname & Hne & Hfresh & info & Hinfo & Horder & ->)
       |(Hskip & ->)].
  - (* a new id: one entry is appended *)
    split; simpl.
    + intros x. rewrite elem_of_union, elem_of_singleton, Hseen. split.
      * intros [->|(Hx & j & s & Hj & Hs)].
        -- split; [assumption|]. exists (length done), style.
           rewrite lookup_app_r, Nat.sub_diag by lia. auto.
        -- split; [assumption|]. exists j, s.
           rewrite lookup_app_l by (eapply lookup_lt_Some; eassumption).
           auto.
      * intros (Hx & j & s & Hj & Hs & Hn).
        apply lookup_app_Some in Hj as [Hj|[Hlen Hj]]; [right; eauto 6|].
        left. apply list_lookup_singleton_Some in Hj as [_ <-]. auto.
    + intros info' [Hold| ->%list_elem_of_singleton]%elem_of_app.
      * destruct (Hfirst info' Hold) as (i & Hi & Hocc).
        exists i. eauto using firstProcessedOccurrence_app.
      * exists (length done). split; [assumption|]. rewrite Hinfo. split.
        -- exists style. rewrite lookup_app_r, Nat.sub_diag by lia. auto.
        -- intros j style' Hj Hlook Hsame.
           rewrite lookup_app_l in Hlook by assumption.
           destruct (processes preset style') eqn:Hn; [|reflexivity].
           exfalso. apply Hfresh, Hseen. eauto 7.
    + rewrite fmap_app. apply NoDup_app. repeat split; auto.
      * intros x Hx [= ->]%list_elem_of_singleton.
        apply Hfresh, Hids. now rewrite <- Hinfo.
      * apply NoDup_singleton.
    + intros x. rewrite fmap_app, elem_of_app, elem_of_union, Hids.
      simpl. rewrite Hinfo, list_elem_of_singleton, elem_of_singleton.
      tauto.
  - (* nothing is appended *)
    split; auto.
    + intros x. rewrite Hseen. split.
      * intros (Hx & j & s & Hj & Hs). split; [assumption|].
        exists j, s. rewrite lookup_app_l
          by (eapply lookup_lt_Some; eassumption). auto.
      * intros (Hx & j & s & Hj & Hs & Hn). split; [assumption|].
        apply lookup_app_Some in Hj as [Hj|[Hlen Hj]]; [eauto 6|].
        apply list_lookup_singleton_Some in Hj as [_ <-].
        destruct Hskip as [Hno|[Hempty|Hin]]; [congruence..|].
        apply Hseen in Hin as (_ & Hwit). now rewrite <- Hs.
    + intros info Hin. destruct (Hfirst info Hin) as (i & Hi & Hocc).
      exists i. eauto using firstProcessedOccurrence_app.
Qed.

Lemma LoopInv_processStyles rest : forall done acc,
  LoopInv preset done acc ->
  LoopInv preset (done ++ rest) (processStyles preset (length done) rest acc).
Proof.
  induction rest as [|style rest IH]; intros done acc Hinv; simpl.
  - now rewrite app_nil_r.
  - apply LoopInv_step with (style := style) in Hinv.
    apply IH in Hinv. rewrite length_app, Nat.add_1_r in Hinv.
    now rewrite <- app_assoc in Hinv.
Qed.
End AppliedStyles.

(** C9, as the code has it. For every element the call resolves, with at
    most one entry per style id; each entry's [order] is the index, in
    the applied-styles list, of the first style with that id that the
    loop got through (its [getName] call resolved and the detection did
    not reject); no entry has an empty id; and every non-empty id that
    has such a style is in the result. *)
Theorem getAppliedStyles_first_processed_occurrence
    (registry : PresetRegistry) (element : option Element.t) :
  exists result,
    getAppliedStyles registry element = Resolved result
    /\ NoDup (StyleInfo.id <$> result)
    /\ orderedBy (firstProcessedOccurrence (currentPreset registry))
               (appliedStylesOf element) result
    /\ (forall info, info ∈ result -> StyleInfo.id info <> [])
    /\ forall i style,
         appliedStylesOf element !! i = Some style ->
         Style.id style <> [] ->
         processes (currentPreset registry) style = true ->
         Style.id style ∈ (StyleInfo.id <$> result).
Proof.
  assert (Hempty : exists result : list StyleInfo.t,
    Resolved (A := list StyleInfo.t) [] = Resolved result
    /\ NoDup (StyleInfo.id <$> result)
    /\ orderedBy (firstProcessedOccurrence (currentPreset registry)) [] result
    /\ (forall info, info ∈ result -> StyleInfo.id info <> [])
    /\ forall i style, @nil Style.t !! i = Some style ->
         Style.id style <> [] ->
         processes (currentPreset registry) style = true ->
         Style.id style ∈ (StyleInfo.id <$> result)).
  { exists []. repeat split.
    - constructor.
    - intros info Hin. inversion Hin.
    - intros info Hin. inversion Hin.
    - intros i style Hi. destruct i; discriminate. }
  unfold getAppliedStyles, appliedStylesOf.
  destruct (element ≫= Element.getStyles)
    as [[[[|first others]|]|err]|]; try exact Hempty.
  set (styles := first :: others).
  pose proof (LoopInv_processStyles (currentPreset registry) styles []
                _ (LoopInv_nil _)) as [Hseen Hfirst Hnodup Hids].
  simpl app in *. simpl length in *.
  eexists. split; [reflexivity|]. repeat split; auto.
  - intros info Hin. apply (Hseen (StyleInfo.id info)), Hids.
    now apply list_elem_of_fmap_2.
  - intros i style Hi Hne Hname. apply Hids, Hseen. eauto 6.
Qed.

(** C9 as stated fails when the first style with an id does not give
    its name: the entry comes from the second one and is ordered by its
    index, 1, although index 0 holds the same id. *)
Lemma unnamed_first_occurrence_is_passed_over :
  getAppliedStyles (mockRegistry "api-first-preset") elementWithUnnamedFirst
  = Resolved [StyleInfo.mk (js "a") (js "is-active") [] 1 true SrcHeuristic]
  /\ ~ orderedBy firstOccurrence (appliedStylesOf elementWithUnnamedFirst)
         [StyleInfo.mk (js "a") (js "is-active") [] 1 true SrcHeuristic].
Proof.
  split; [reflexivity|].
  intros Hordered.
  destruct (Hordered _ (list_elem_of_here _ _)) as (i & Hi & _ & Hbefore).
  simpl in Hi. assert (i = 1%nat) as -> by lia.
  apply (Hbefore 0%nat unnamedStyle); [lia | reflexivity | reflexivity].
Qed.

(** ** [sortStylesByType] *)

Section InsertionSort.
Context {A : Type} (comparefn : A -> A -> Z).
Let le (x y : A) : Prop := (comparefn x y <= 0)%Z.
Hypothesis le_total : forall x y, le x y \/ le y x.
Hypothesis le_trans : forall x y z, le x y -> le y z -> le x z.

Lemma insertSorted_perm x l : insertSorted comparefn x l ≡ₚ x :: l.
Proof.
  induction l as [|y l IH]; simpl; [reflexivity|].
  destruct (comparefn x y <=? 0)%Z; [reflexivity|].
  rewrite IH. apply Permutation_swap.
Qed.

Lemma sorted_perm l : sorted comparefn l ≡ₚ l.
Proof.
  induction l as [|x l IH]; simpl; [reflexivity|].
  now rewrite insertSorted_perm, IH.
Qed.

Lemma insertSorted_sorted x l :
  StronglySorted le l -> StronglySorted le (insertSorted comparefn x l).
Proof.
  induction 1 as [|y l Hl IH Hy]; simpl.
  - repeat constructor.
  - destruct (Z.leb_spec (comparefn x y) 0) as [Hxy|Hxy].
    + constructor; [constructor; assumption|].
      constructor; [exact Hxy|].
      eapply Forall_impl; [exact Hy|]. intros z Hz. now apply le_trans with y.
    + constructor; [exact IH|].
      rewrite insertSorted_perm. constructor; [|exact Hy].
      destruct (le_total x y) as [Hle|Hle]; [unfold le in Hle; lia | exact Hle].
Qed.

Lemma sorted_sorted l : StronglySorted le (sorted comparefn l).
Proof.
  induction l as [|x l IH]; simpl; [constructor|].
  now apply insertSorted_sorted.
Qed.
End InsertionSort.

Lemma StronglySorted_lookup {A} (R : A -> A -> Prop) (l : list A) :
  StronglySorted R l ->
  forall i j a b, (i < j)%nat -> l !! i = Some a -> l !! j = Some b -> R a b.
Proof.
  induction 1 as [|x l Hl IH Hx]; intros i j a b Hij Hi Hj.
  - destruct i; discriminate.
  - destruct j as [|j]; [lia|]. simpl in Hj. destruct i as [|i].
    + injection Hi as <-. rewrite Forall_forall in Hx.
      apply Hx, list_elem_of_lookup. eauto.
    + simpl in Hi. apply (IH i j); auto with lia.
Qed.

Lemma before_total a b : before a b \/ before b a.
Proof.
  unfold before, compareStyles.
  destruct (StyleInfo.isCombo a), (StyleInfo.isCombo b); simpl; lia.
Qed.

Lemma before_trans a b c : before a b -> before b c -> before a c.
Proof.
  unfold before, compareStyles.
  destruct (StyleInfo.isCombo a), (StyleInfo.isCombo b),
    (StyleInfo.isCombo c); simpl; lia.
Qed.

(** What [before] says of two entries: no combo in front of a plain
    style, and ascending [order] inside a group. *)
Lemma before_spec a b :
  before a b ->
  (StyleInfo.isCombo a = true -> StyleInfo.isCombo b = true)
  /\ (StyleInfo.isCombo a = StyleInfo.isCombo b ->
      (StyleInfo.order a <= StyleInfo.order b)%Z).
Proof.
  unfold before, compareStyles.
  destruct (StyleInfo.isCombo a), (StyleInfo.isCombo b); simpl;
    intros H; split; intros; lia || congruence.
Qed.

(** C10. [sortStylesByType] leaves the array it is given (and every
    other array of the store) as it was, and returns a new array that
    holds the same entries, no combo in front of a style that is not
    one, and each of the two groups in ascending [order]. *)
Theorem sortStylesByType_spec
    (st : Store) (styles : nat) (elems : list StyleInfo.t) :
  st !! styles = Some elems ->
  exists st' out result,
    sortStylesByType st styles = Some (st', out)
    /\ st' !! styles = Some elems
    /\ (forall a, a <> out -> st' !! a = st !! a)
    /\ st' !! out = Some result
    /\ result ≡ₚ elems
    /\ forall i j a b,
         (i < j)%nat -> result !! i = Some a -> result !! j = Some b ->
         (StyleInfo.isCombo a = true -> StyleInfo.isCombo b = true)
         /\ (StyleInfo.isCombo a = StyleInfo.isCombo b ->
             (StyleInfo.order a <= StyleInfo.order b)%Z).
Proof.
  intros Hstyles.
  set (copy := fresh (dom st)).
  assert (Hfresh : st !! copy = None)
    by (apply not_elem_of_dom, is_fresh).
  assert (Hne : copy <> styles) by congruence.
  exists (<[copy := sorted compareStyles elems]> (<[copy := elems]> st)),
    copy, (sorted compareStyles elems).
  split; [|split; [|split; [|split; [|split]]]].
  - unfold sortStylesByType, spread, sortInPlace. rewrite Hstyles. simpl.
    fold copy. rewrite lookup_insert_eq. reflexivity.
  - now rewrite !lookup_insert_ne.
  - intros a Ha. now rewrite !lookup_insert_ne.
  - apply lookup_insert_eq.
  - apply sorted_perm.
  - intros i j a b Hij Hi Hj. apply before_spec.
    eapply (StronglySorted_lookup before); eauto.
    apply sorted_sorted; [exact before_total | exact before_trans].
Qed.

(** [sortStylesByType_spec] on a store that holds one array of four
    entries. *)
Lemma sortStylesByType_spec_witness :
  ({[ 7%nat := fourEntries ]} : Store) !! 7%nat = Some fourEntries
  /\ exists st' out result,
       sortStylesByType {[ 7%nat := fourEntries ]} 7 = Some (st', out)
       /\ st' !! 7%nat = Some fourEntries
       /\ (forall a, a <> out ->
             st' !! a = ({[ 7%nat := fourEntries ]} : Store) !! a)
       /\ st' !! out = Some result
       /\ result ≡ₚ fourEntries
       /\ forall i j a b,
            (i < j)%nat -> result !! i = Some a -> result !! j = Some b ->
            (StyleInfo.isCombo a = true -> StyleInfo.isCombo b = true)
            /\ (StyleInfo.isCombo a = StyleInfo.isCombo b ->
                (StyleInfo.order a <= StyleInfo.order b)%Z).
Proof.
  split; [reflexivity|].
  apply sortStylesByType_spec. reflexivity.
Defined.

(** ** The expectations of the test suite *)

(** The cases of [style.service.combo-detection.test.ts] that go through
    [detectComboClass], with the results the tests expect. *)
Example test_suite_detection :
  detectMock "api-first-preset" "is-active" (Some (MockBool true))
    = Resolved (mkResult true SrcApi)
  /\ detectMock "api-first-preset" "is-hidden" (Some (MockBool false))
    = Resolved (mkResult false SrcApi)
  /\ detectMock "api-first-preset" "is-combo" (Some MockNull)
    = Resolved (mkResult true SrcHeuristic)
  /\ detectMock "api-first-preset" "is-visible" None
    = Resolved (mkResult true SrcHeuristic)
  /\ detectMock "api-first-preset" "is-error" (Some MockError)
    = Resolved (mkResult true SrcHeuristic)
  /\ detectMock "api-only-preset" "is-combo" (Some (MockBool true))
    = Resolved (mkResult true SrcApi)
  /\ detectMock "api-only-preset" "is-other" None
    = Resolved (mkResult false SrcPolicy)
  /\ detectMock "heuristic-only-preset" "is-combo" (Some (MockBool false))
    = Resolved (mkResult true SrcHeuristic)
  /\ detectMock "custom-policy-preset" "is-api-combo" (Some (MockBool true))
    = Resolved (mkResult true SrcPolicy)
  /\ detectMock "custom-policy-preset" "is-normal-combo" None
    = Resolved (mkResult true SrcPolicy)
  /\ detectMock "default-preset" "is-combo" (Some (MockBool true))
    = Resolved (mkResult true SrcApi).
Proof. repeat split; reflexivity. Qed.

(** The valid and invalid names of the ['Heuristic pattern matching']
    tests. *)
Example test_suite_heuristic :
  forallb (fun name => heuristicResult (js name))
    ["is-active"; "is-hidden"; "is_visible"; "isActive"; "isHidden";
     "is-1234"]%string
  = true
  /\ existsb (fun name => heuristicResult (js name))
       ["is-"; "is1234"; "component-card"; "utility-class";
        "custom-class"]%string
     = false.
Proof. split; reflexivity. Qed.

(** A style applied twice is returned once, under the index of its first
    occurrence, with its name trimmed. *)
Example applied_styles_with_duplicate :
  getAppliedStyles (mockRegistry "api-first-preset") elementWithDuplicate
  = Resolved
      [StyleInfo.mk (js "s1") (js "card") [] 0 false SrcHeuristic;
       StyleInfo.mk (js "s2") (js "is-active") [] 1 true SrcApi].
Proof. reflexivity. Qed.

(** Sorting four entries: plain styles first, each group by [order]. *)
Example sorted_fourEntries :
  sorted compareStyles fourEntries
  = [entry "u-pad" 0 false; entry "card" 2 false;
     entry "is-big" 1 true; entry "is-open" 3 true].
Proof. reflexivity. Qed.

(** * Further properties of the code *)

(** ** The heuristic *)

Lemma rmatch_litThenClass lit a (s : jsstring) :
  rmatch (Seq (Lit lit) (One a)) s (fun s' => star Dot s' (fun _ => true))
  = litThenClass lit a s.
Proof.
  rewrite rmatch_Seq. unfold litThenClass.
  change (rmatch (Lit lit) s ?k)
    with (match afterLit (js lit) s with Some s' => k s' | None => false end).
  destruct (afterLit (js lit) s) as [[|c rest]|]; try reflexivity.
  cbn [rmatch]. rewrite star_total by reflexivity. apply andb_true_r.
Qed.

(** The pattern, without its matcher: three prefix tests. *)
Lemma heuristicResult_prefixes (s : jsstring) :
  heuristicResult s
  = litThenClass "is-" alnumClass s
    || (litThenClass "is_" alnumClass s || litThenClass "is" upperClass s).
Proof.
  unfold heuristicResult, test, comboPattern.
  rewrite rmatch_Seq, !rmatch_Alt.
  change (rmatch (Star Dot)) with (star Dot).
  now rewrite !rmatch_litThenClass.
Qed.

Lemma litThenClass_take lit a (n : nat) (s : jsstring) :
  (length (js lit) < n)%nat ->
  litThenClass lit a (take n s) = litThenClass lit a s.
Proof.
  unfold litThenClass. generalize (js lit) as l.
  intros l; revert n s; induction l as [|p l IH]; intros n s Hn.
  - destruct n as [|n]; [simpl in Hn; lia|]. now destruct s.
  - destruct n as [|n]; [simpl in Hn; lia|].
    destruct s as [|c s]; [reflexivity|]. simpl in *.
    destruct (c =? p); [apply IH; lia | reflexivity].
Qed.

(** X1. The heuristic reads at most the first four code units of the
    class name: it gives the same answer on the name cut after four
    code units, so whatever follows them never matters. *)
Theorem heuristicResult_first_four (className : jsstring) :
  heuristicResult (take 4 className) = heuristicResult className.
Proof.
  rewrite !heuristicResult_prefixes.
  now rewrite !litThenClass_take by (vm_compute; lia).
Qed.

Lemma litThenClass_needs_i lit a (c : code_unit) (s : jsstring) :
  (exists rest, js lit = code "i" :: rest) -> c <> code "i" ->
  litThenClass lit a (c :: s) = false.
Proof.
  intros [rest Hlit] Hc. unfold litThenClass. rewrite Hlit. cbn [afterLit].
  destruct (N.eqb_spec c (code "i")); [contradiction | reflexivity].
Qed.

(** X2. A class name that begins with a character [trim] would strip
    (white space or a line terminator) is never a heuristic combo,
    whatever follows: the pattern is anchored at the first code unit. *)
Theorem heuristicResult_leading_space (c : code_unit) (rest : jsstring) :
  isTrimmed c = true -> heuristicResult (c :: rest) = false.
Proof.
  intros Hspace.
  assert (Hc : c <> code "i") by (intros ->; discriminate Hspace).
  rewrite heuristicResult_prefixes.
  rewrite !litThenClass_needs_i; try assumption; try reflexivity;
    eexists; reflexivity.
Qed.

(** [heuristicResult_leading_space] on a name that starts with a
    no-break space. *)
Lemma heuristicResult_leading_space_witness :
  isTrimmed 0x00A0 = true
  /\ heuristicResult (0x00A0 :: js "is-active") = false.
Proof.
  split; [reflexivity|].
  apply heuristicResult_leading_space. reflexivity.
Defined.

(** ** [detectComboClass]: what a result says about its inputs *)

(** X3. Under every policy that is not a custom function, the result
    can be audited from its [source]: ["api"] is only reported for a
    style that has the API method, ["heuristic"] always carries the
    heuristic's answer, ["policy"] only occurs with [isCombo = false] on
    a style without the method; and a class is never reported as a
    combo unless the API said [true] or the heuristic matched. *)
Theorem named_policy_audit
    (style : Style.t) (className : jsstring) (preset : option Preset.t)
    (result : ComboDetectionResult) :
  (forall fn, policyOf preset <> Some (PolicyFn fn)) ->
  detectComboClass style className preset = Resolved result ->
  (isCombo result = true ->
     externalSignal style = SigBool true \/ heuristicResult className = true)
  /\ (source result = SrcApi -> hasApiMethod style = true)
  /\ (source result = SrcHeuristic ->
      isCombo result = heuristicResult className)
  /\ (source result = SrcPolicy ->
      isCombo result = false /\ hasApiMethod style = false).
Proof.
  intros Hnamed Hres.
  unfold detectComboClass, externalSignal, hasApiMethod, policyOf in *.
  destruct (preset ≫= Preset.comboDetectionPolicy) as [[name|fn]|];
    [| now destruct (Hnamed fn) |]; simpl in Hres;
    destruct (Style.isComboClass style) as [[[[]| |]|err]|];
    simpl in Hres; repeat case_decide; unfold mret, Outcome_ret in Hres;
    simplify_eq; simpl; repeat split; intros; auto; discriminate.
Qed.

(** [named_policy_audit] on the style whose call rejects, under
    ['api-only']. *)
Lemma named_policy_audit_witness :
  (forall fn, policyOf (mockPreset "api-only-preset") <> Some (PolicyFn fn))
  /\ detectComboClass styleWithError (js "is-error")
                      (mockPreset "api-only-preset")
     = Resolved (mkResult false SrcApi)
  /\ (isCombo (mkResult false SrcApi) = true ->
        externalSignal styleWithError = SigBool true
        \/ heuristicResult (js "is-error") = true)
  /\ (source (mkResult false SrcApi) = SrcApi ->
        hasApiMethod styleWithError = true)
  /\ (source (mkResult false SrcApi) = SrcHeuristic ->
        isCombo (mkResult false SrcApi) = heuristicResult (js "is-error"))
  /\ (source (mkResult false SrcApi) = SrcPolicy ->
        isCombo (mkResult false SrcApi) = false
        /\ hasApiMethod styleWithError = false).
Proof.
  assert (H : forall fn,
             policyOf (mockPreset "api-only-preset") <> Some (PolicyFn fn))
    by (intros fn; vm_compute; discriminate).
  split; [exact H|]. split; [reflexivity|].
  apply (named_policy_audit styleWithError (js "is-error")
           (mockPreset "api-only-preset")); [exact H | reflexivity].
Defined.

(** X4. ['api-first'] lies between the other two named policies: when
    the external signal is a boolean it gives what ['api-only'] gives,
    and when the signal is [null] or [undefined] it gives what
    ['heuristic-only'] gives. *)
Theorem api_first_between
    (style : Style.t) (className : jsstring)
    (first only heur : option Preset.t) :
  policyOf first = Some (PolicyName (js "api-first")) ->
  policyOf only = Some (PolicyName (js "api-only")) ->
  policyOf heur = Some (PolicyName (js "heuristic-only")) ->
  (forall b, externalSignal style = SigBool b ->
     detectComboClass style className first
     = detectComboClass style className only)
  /\ (externalSignal style = SigNull \/ externalSignal style = SigUndefined ->
      detectComboClass style className first
      = detectComboClass style className heur).
Proof.
  intros Hfirst Honly Hheur.
  unfold detectComboClass, externalSignal, policyOf in *.
  rewrite Hfirst, Honly, Hheur. simpl.
  destruct (Style.isComboClass style) as [[v|err]|]; simpl; split;
    try (intros b Hb; simplify_eq; destruct b; reflexivity);
    try (intros [Hs|Hs]; simplify_eq; reflexivity).
Qed.

(** [api_first_between] on the presets of the mocked registry. *)
Lemma api_first_between_witness :
  policyOf (mockPreset "api-first-preset") = Some (PolicyName (js "api-first"))
  /\ policyOf (mockPreset "api-only-preset") = Some (PolicyName (js "api-only"))
  /\ policyOf (mockPreset "heuristic-only-preset")
     = Some (PolicyName (js "heuristic-only"))
  /\ (forall b, externalSignal styleApiFalse = SigBool b ->
        detectComboClass styleApiFalse (js "is-combo")
                         (mockPreset "api-first-preset")
        = detectComboClass styleApiFalse (js "is-combo")
                           (mockPreset "api-only-preset"))
  /\ (externalSignal styleApiFalse = SigNull
      \/ externalSignal styleApiFalse = SigUndefined ->
        detectComboClass styleApiFalse (js "is-combo")
                         (mockPreset "api-first-preset")
        = detectComboClass styleApiFalse (js "is-combo")
                           (mockPreset "heuristic-only-preset")).
Proof.
  split; [reflexivity|]. split; [reflexivity|]. split; [reflexivity|].
  apply api_first_between; reflexivity.
Defined.

(** ** [getAppliedStyles]: what the entries hold *)

(** On an element without a list of styles, the loop runs on no style. *)
Lemma getAppliedStyles_loop
    (registry : PresetRegistry) (element : option Element.t) :
  getAppliedStyles registry element
  = Resolved (uniqueStyles
      (processStyles (currentPreset registry) 0 (appliedStylesOf element)
                     (mkAcc ∅ []))).
Proof.
  unfold getAppliedStyles, appliedStylesOf.
  now destruct (element ≫= Element.getStyles) as [[[[|first others]|]|err]|].
Qed.

Section AppliedEntries.
Variable preset : option Preset.t.
Implicit Types (style : Style.t) (acc : Acc) (done rest : list Style.t).

Lemma iteration_built i style acc info :
  info ∈ uniqueStyles (try_assign acc (processStyle preset i style acc)) ->
  info ∈ uniqueStyles acc \/ builtFrom preset i style info.
Proof.
  unfold processStyle.
  destruct (Style.getName style) as [name|err] eqn:Hname; simpl; [|auto].
  destruct (detectComboClass style (trimmedNameOf name) preset)
    as [[combo src]|err] eqn:Hdetect; simpl; [|auto].
  destruct (truthy (Style.id style) && _); simpl; [|auto].
  rewrite elem_of_app, list_elem_of_singleton. intros [Hold| ->]; [auto|].
  right. exists name. now repeat split.
Qed.

Lemma processStyles_built rest : forall done acc,
  (forall info, info ∈ uniqueStyles acc ->
     exists i style, done !! i = Some style /\ builtFrom preset i style info) ->
  forall info,
    info ∈ uniqueStyles (processStyles preset (length done) rest acc) ->
    exists i style,
      (done ++ rest) !! i = Some style /\ builtFrom preset i style info.
Proof.
  induction rest as [|style rest IH]; intros done acc Hacc info; simpl.
  - rewrite app_nil_r. apply Hacc.
  - intros Hin.
    replace (done ++ style :: rest) with ((done ++ [style]) ++ rest)
      by now rewrite <- app_assoc.
    apply (IH (done ++ [style])
              (try_assign acc (processStyle preset (length done) style acc)));
      [|now rewrite length_app, Nat.add_1_r].
    intros info' Hin'. apply iteration_built in Hin' as [Hold|Hnew].
    + destruct (Hacc _ Hold) as (i & s & Hi & Hb). exists i, s.
      split; [|exact Hb]. apply lookup_app_l_Some, Hi.
    + exists (length done), style. split; [|exact Hnew].
      now rewrite lookup_app_r, Nat.sub_diag by lia.
Qed.

Lemma processStyles_ascending rest : forall i acc,
  StronglySorted orderBelow (uniqueStyles acc) ->
  (forall info, info ∈ uniqueStyles acc ->
     (0 <= StyleInfo.order info < Z.of_nat i)%Z) ->
  let acc' := processStyles preset i rest acc in
  StronglySorted orderBelow (uniqueStyles acc')
  /\ forall info, info ∈ uniqueStyles acc' ->
       (0 <= StyleInfo.order info < Z.of_nat (i + length rest))%Z.
Proof.
  induction rest as [|style rest IH]; intros i acc Hsorted Hbound; simpl.
  - rewrite Nat.add_0_r. auto.
  - replace (i + S (length rest))%nat with (S i + length rest)%nat by lia.
    destruct (iteration_cases preset i style acc)
      as [(_ & _ & _ & info & _ & Horder & ->)|(_ & ->)].
    + apply IH; simpl.
      * apply StronglySorted_app_2; auto.
        -- intros a b Ha ->%list_elem_of_singleton. unfold orderBelow.
           specialize (Hbound a Ha). lia.
        -- repeat constructor.
      * intros a [Ha| ->%list_elem_of_singleton]%elem_of_app;
          [specialize (Hbound a Ha)|]; lia.
    + apply IH; [assumption|]. intros a Ha. specialize (Hbound a Ha). lia.
Qed.
End AppliedEntries.

Lemma processStyles_shape (preset1 preset2 : option Preset.t)
    (rest : list Style.t) :
  Forall (fun style => processes preset1 style = processes preset2 style)
         rest ->
  forall i acc1 acc2,
  seenIds acc1 = seenIds acc2 ->
  shape <$> uniqueStyles acc1 = shape <$> uniqueStyles acc2 ->
  shape <$> uniqueStyles (processStyles preset1 i rest acc1)
  = shape <$> uniqueStyles (processStyles preset2 i rest acc2).
Proof.
  induction 1 as [|style rest Hhead Hrest IH];
    intros i [seen1 unique1] [seen2 unique2] Hseen Hshape;
    simpl in Hseen, Hshape; subst seen2; simpl.
  - exact Hshape.
  - unfold processStyle. unfold processes in Hhead.
    destruct (Style.getName style) as [name|err]; simpl; [|now apply IH].
    destruct (detectComboClass style (trimmedNameOf name) preset1)
      as [r1|err1],
      (detectComboClass style (trimmedNameOf name) preset2)
      as [r2|err2]; try discriminate Hhead; simpl; [|now apply IH].
    destruct (truthy (Style.id style) && _); simpl; [|now apply IH].
    apply IH; simpl; [reflexivity|].
    rewrite !fmap_app. now f_equal.
Qed.

(** X5. Every entry that [getAppliedStyles] returns is built from the
    style at the index its [order] names: it has that style's id and
    trimmed name, the outcome of [detectComboClass] on the trimmed name
    under the current preset, and the style's properties at breakpoint
    ['main'] when the trimmed name starts with [u-] and they can be
    fetched, the empty object otherwise. *)
Theorem getAppliedStyles_entries
    (registry : PresetRegistry) (element : option Element.t) :
  exists result,
    getAppliedStyles registry element = Resolved result
    /\ forall info, info ∈ result ->
         exists i style,
           appliedStylesOf element !! i = Some style
           /\ builtFrom (currentPreset registry) i style info.
Proof.
  rewrite getAppliedStyles_loop. eexists. split; [reflexivity|].
  apply (processStyles_built _ (appliedStylesOf element) []).
  intros info Hin. inversion Hin.
Qed.

(** X6. The entries of [getAppliedStyles] come in strictly ascending
    [order], and every [order] is an index of the applied-styles list. *)
Theorem getAppliedStyles_ascending
    (registry : PresetRegistry) (element : option Element.t) :
  exists result,
    getAppliedStyles registry element = Resolved result
    /\ StronglySorted orderBelow result
    /\ forall info, info ∈ result ->
         (0 <= StyleInfo.order info
          < Z.of_nat (length (appliedStylesOf element)))%Z.
Proof.
  rewrite getAppliedStyles_loop. eexists. split; [reflexivity|].
  apply (processStyles_ascending _ (appliedStylesOf element) 0 (mkAcc ∅ [])).
  - constructor.
  - intros info Hin. inversion Hin.
Qed.

(** X7. Where the loop gets through the same applied styles under
    the current presets of two registries, the preset decides nothing
    but [isCombo] and [comboDetectionSource]: the same element gives
    entries with the same ids, names, properties and orders, in the
    same sequence. *)
Theorem getAppliedStyles_shape_ignores_preset
    (registry1 registry2 : PresetRegistry) (element : option Element.t) :
  Forall (fun style => processes (currentPreset registry1) style
                       = processes (currentPreset registry2) style)
         (appliedStylesOf element) ->
  exists result1 result2,
    getAppliedStyles registry1 element = Resolved result1
    /\ getAppliedStyles registry2 element = Resolved result2
    /\ shape <$> result1 = shape <$> result2.
Proof.
  intros Hsame. rewrite !getAppliedStyles_loop. do 2 eexists.
  split; [reflexivity|]. split; [reflexivity|].
  now apply processStyles_shape.
Qed.

(** [getAppliedStyles_shape_ignores_preset] on the element with a style
    applied twice, under the api-first and the heuristic-only presets of
    the mocked registry. *)
Lemma getAppliedStyles_shape_ignores_preset_witness :
  Forall (fun style =>
            processes (currentPreset (mockRegistry "api-first-preset")) style
            = processes (currentPreset (mockRegistry "heuristic-only-preset"))
                        style)
         (appliedStylesOf elementWithDuplicate)
  /\ exists result1 result2,
       getAppliedStyles (mockRegistry "api-first-preset") elementWithDuplicate
       = Resolved result1
       /\ getAppliedStyles (mockRegistry "heuristic-only-preset")
                           elementWithDuplicate
          = Resolved result2
       /\ shape <$> result1 = shape <$> result2.
Proof.
  assert (H : Forall (fun style =>
            processes (currentPreset (mockRegistry "api-first-preset")) style
            = processes (currentPreset (mockRegistry "heuristic-only-preset"))
                        style)
         (appliedStylesOf elementWithDuplicate))
    by (repeat constructor).
  split; [exact H|].
  apply getAppliedStyles_shape_ignores_preset. exact H.
Defined.

(** ** [getAppliedClassNames] *)

Lemma promiseAll_Resolved {A} (l : list A) :
  promiseAll (Resolved <$> l) = Resolved l.
Proof.
  induction l as [|a l IH]; [reflexivity|].
  rewrite fmap_cons. cbn [promiseAll]. rewrite IH. reflexivity.
Qed.

Lemma classNameOf_resolves (style : Style.t) :
  classNameOf style = Resolved (trimmedClassName style).
Proof.
  unfold classNameOf, trimmedClassName.
  now destruct (Style.getName style).
Qed.

Lemma getAppliedClassNames_dedupe (element : option Element.t) :
  getAppliedClassNames element
  = Resolved (dedupeNames (trimmedClassName <$> appliedStylesOf element) ∅ []).
Proof.
  unfold getAppliedClassNames, appliedStylesOf.
  destruct (element ≫= Element.getStyles) as [[[[|first others]|]|err]|];
    try reflexivity.
  rewrite (list_fmap_ext classNameOf (Resolved ∘ trimmedClassName))
    by (intros; apply classNameOf_resolves).
  rewrite list_fmap_compose, promiseAll_Resolved. reflexivity.
Qed.

Lemma nothing_seen (x : jsstring) : x ∈ (∅ : gset jsstring) <-> x ∈ @nil jsstring.
Proof. rewrite elem_of_empty, elem_of_nil. tauto. Qed.

(** The loop keeps what it has, and appends the non-empty names it has
    not seen, in the order it meets them. *)
Lemma dedupeNames_spec (names : list jsstring) : forall seen deduped,
  (forall x, x ∈ seen <-> x ∈ deduped) ->
  NoDup deduped ->
  NoDup (dedupeNames names seen deduped)
  /\ (forall x, x ∈ dedupeNames names seen deduped <->
                x ∈ deduped \/ (x <> [] /\ x ∈ names))
  /\ exists tail, dedupeNames names seen deduped = deduped ++ tail
                  /\ tail `sublist_of` names.
Proof.
  induction names as [|n names IH]; intros seen deduped Hseen Hnodup; simpl.
  - split; [assumption|]. split.
    + intros x. rewrite elem_of_nil. tauto.
    + exists []. now rewrite app_nil_r.
  - destruct (truthy n) eqn:Hn; simpl.
    + apply truthy_nonempty in Hn. case_bool_decide as Hin; simpl.
      * destruct (IH seen deduped Hseen Hnodup)
          as (Hnd & Hmem & tail & Heq & Hsub).
        split; [assumption|]. split.
        -- intros x. rewrite Hmem, elem_of_cons. split; [tauto|].
           intros [Hx|[Hx [->|Hx']]]; auto. left. now apply Hseen.
        -- exists tail. split; [assumption|]. now apply sublist_cons.
      * destruct (IH ({[ n ]} ∪ seen) (deduped ++ [n]))
          as (Hnd & Hmem & tail & Heq & Hsub).
        { intros x. rewrite elem_of_union, elem_of_singleton, elem_of_app,
            list_elem_of_singleton, Hseen. tauto. }
        { apply NoDup_app. repeat split; [assumption| |apply NoDup_singleton].
          intros x Hx ->%list_elem_of_singleton. now apply Hin, Hseen. }
        split; [assumption|]. split.
        -- intros x. rewrite Hmem, elem_of_app, list_elem_of_singleton,
             elem_of_cons. split.
           ++ intros [[Hx| ->]|[Hx Hx']]; auto.
           ++ intros [Hx|[Hx [->|Hx']]]; auto.
        -- exists (n :: tail). rewrite Heq, <- app_assoc.
           split; [reflexivity|]. now apply sublist_skip.
    + assert (n = []) as -> by (now destruct n).
      destruct (IH seen deduped Hseen Hnodup)
        as (Hnd & Hmem & tail & Heq & Hsub).
      split; [assumption|]. split.
      * intros x. rewrite Hmem, elem_of_cons. split; [tauto|].
        intros [Hx|[Hx [->|Hx']]]; auto. contradiction.
      * exists tail. split; [assumption|]. now apply sublist_cons.
Qed.

(** Visiting [names1 ++ names2] is visiting [names1], then [names2]. *)
Lemma dedupeNames_app (names1 names2 : list jsstring) : forall seen deduped,
  exists seen',
    dedupeNames (names1 ++ names2) seen deduped
    = dedupeNames names2 seen' (dedupeNames names1 seen deduped)
    /\ ((forall x, x ∈ seen <-> x ∈ deduped) ->
        forall x, x ∈ seen' <-> x ∈ dedupeNames names1 seen deduped).
Proof.
  induction names1 as [|n names1 IH]; intros seen deduped; simpl.
  - exists seen. auto.
  - destruct (truthy n && negb (bool_decide (n ∈ seen))).
    + destruct (IH ({[ n ]} ∪ seen) (deduped ++ [n])) as (seen' & Heq & Hs).
      exists seen'. split; [exact Heq|]. intros Hseen. apply Hs.
      intros x. rewrite elem_of_union, elem_of_singleton, elem_of_app,
        list_elem_of_singleton, Hseen. tauto.
    + apply IH.
Qed.

(** X8. [getAppliedClassNames] resolves for every element, to the
    non-empty trimmed names of the applied styles, each exactly once
    and in the order of the styles; a style whose [getName] fails or
    whose name is empty or blank contributes nothing. *)
Theorem getAppliedClassNames_spec (element : option Element.t) :
  exists result,
    getAppliedClassNames element = Resolved result
    /\ NoDup result
    /\ (forall x, x ∈ result <->
          x <> [] /\ exists style, style ∈ appliedStylesOf element
                                   /\ trimmedClassName style = x)
    /\ result `sublist_of` (trimmedClassName <$> appliedStylesOf element).
Proof.
  rewrite getAppliedClassNames_dedupe. eexists. split; [reflexivity|].
  destruct (dedupeNames_spec (trimmedClassName <$> appliedStylesOf element)
              ∅ []) as (Hnodup & Hmem & tail & Heq & Hsub).
  - apply nothing_seen.
  - constructor.
  - split; [assumption|]. split.
    + intros x. rewrite Hmem, elem_of_nil, list_elem_of_fmap. split.
      * intros [[]|[Hx (style & -> & Hin)]]. eauto.
      * intros [Hx (style & Hin & <-)]. eauto.
    + now rewrite Heq.
Qed.

(** X9. Class names are reported as they are met: applying further
    styles to an element only appends to the list of its class names,
    without removing or reordering the ones already there. *)
Theorem getAppliedClassNames_prefix (styles more : list Style.t) :
  exists names names',
    getAppliedClassNames (elementWith styles) = Resolved names
    /\ getAppliedClassNames (elementWith (styles ++ more)) = Resolved names'
    /\ names `prefix_of` names'.
Proof.
  rewrite !getAppliedClassNames_dedupe. do 2 eexists.
  split; [reflexivity|]. split; [reflexivity|].
  unfold elementWith, appliedStylesOf. simpl. rewrite fmap_app.
  destruct (dedupeNames_app (trimmedClassName <$> styles)
              (trimmedClassName <$> more) ∅ []) as (seen' & -> & Hseen').
  destruct (dedupeNames_spec (trimmedClassName <$> styles) ∅ [])
    as (Hnodup & _); [apply nothing_seen | constructor |].
  destruct (dedupeNames_spec (trimmedClassName <$> more) seen'
              (dedupeNames (trimmedClassName <$> styles) ∅ []))
    as (_ & _ & tail & Heq & _);
    [apply Hseen', nothing_seen | assumption |].
  exists tail. exact Heq.
Qed.

(** X10. The two views of an element agree: every non-empty name that
    [getAppliedStyles] returns for an element is among the class names
    that [getAppliedClassNames] returns for it. *)
Theorem applied_style_names_are_class_names
    (registry : PresetRegistry) (element : option Element.t) :
  exists styles names,
    getAppliedStyles registry element = Resolved styles
    /\ getAppliedClassNames element = Resolved names
    /\ forall info, info ∈ styles -> StyleInfo.name info <> [] ->
                    StyleInfo.name info ∈ names.
Proof.
  rewrite getAppliedStyles_loop, getAppliedClassNames_dedupe. do 2 eexists.
  split; [reflexivity|]. split; [reflexivity|].
  intros info Hin Hname.
  apply (processStyles_built _ (appliedStylesOf element) []) in Hin
    as (i & style & Hi & name & Hget & _ & Hn & _);
    [|intros ? Hnil; inversion Hnil].
  destruct (dedupeNames_spec (trimmedClassName <$> appliedStylesOf element)
              ∅ []) as (_ & Hmem & _); [apply nothing_seen | constructor |].
  apply Hmem. right. split; [assumption|].
  apply list_elem_of_fmap. exists style. split.
  - unfold trimmedClassName. now rewrite Hget.
  - eapply list_elem_of_lookup_2, Hi.
Qed.

(** ** [getAllStylesWithProperties] *)

Section SiteStyles.
Variable preset : option Preset.t.

(** The callback never rejects: when the name cannot be read, or the
    detection rejects, it returns the fallback object, whose name is
    empty. *)
Lemma extractStyle_resolves (i : nat) (style : Style.t) :
  exists e,
    extractStyle preset i style = Resolved e
    /\ Extracted.index e = Z.of_nat i
    /\ (extractedFrom preset i style e
        \/ ((exists err, Style.getName style = Rejected err)
            \/ (exists name err,
                  Style.getName style = Resolved name
                  /\ detectComboClass style (nameOrEmpty name) preset
                     = Rejected err))
           /\ Extracted.name e = []).
Proof.
  unfold extractStyle.
  destruct (Style.getName style) as [name|err] eqn:Hname; simpl.
  - destruct (detectComboClass style (nameOrEmpty name) preset)
      as [[combo src]|err] eqn:Hdetect; simpl.
    + eexists. split; [reflexivity|].
      split; [reflexivity|]. left. exists name. now repeat split.
    + eexists. split; [reflexivity|]. split; [reflexivity|]. right. eauto 6.
  - eexists. split; [reflexivity|]. split; [reflexivity|]. right. eauto.
Qed.
End SiteStyles.

(** [Promise.all] over callbacks that all resolve. *)
Lemma promiseAll_imap {A B} (l : list A) : forall (f : nat -> A -> Outcome B),
  (forall i a, l !! i = Some a -> exists b, f i a = Resolved b) ->
  exists bs,
    promiseAll (imap f l) = Resolved bs
    /\ length bs = length l
    /\ forall i a b, l !! i = Some a -> bs !! i = Some b ->
                     f i a = Resolved b.
Proof.
  induction l as [|x l IH]; intros f Hf.
  - exists []. repeat split. intros i a b Hi. destruct i; discriminate.
  - destruct (Hf 0%nat x eq_refl) as [b0 Hb0].
    destruct (IH (f ∘ S)) as (bs & Hbs & Hlen & Hall).
    { intros i a Hi. apply (Hf (S i)), Hi. }
    exists (b0 :: bs). rewrite imap_cons. cbn [promiseAll].
    rewrite Hb0, Hbs. split; [reflexivity|]. split; [simpl; lia|].
    intros [|i] a b Hi Hb; simpl in *.
    + congruence.
    + apply (Hall i a b Hi Hb).
Qed.

Lemma StronglySorted_of_lookup {A} (R : A -> A -> Prop) (l : list A) :
  (forall i j a b, (i < j)%nat -> l !! i = Some a -> l !! j = Some b -> R a b) ->
  StronglySorted R l.
Proof.
  induction l as [|x l IH]; intros HR; constructor.
  - apply IH. intros i j a b Hij Hi Hj. apply (HR (S i) (S j)); auto with lia.
  - apply Forall_forall. intros y [j Hj]%list_elem_of_lookup.
    apply (HR 0%nat (S j)); auto with lia.
Qed.

Lemma StronglySorted_filter {A} (R : A -> A -> Prop)
    (P : A -> Prop) `{!forall x, Decision (P x)} (l : list A) :
  StronglySorted R l -> StronglySorted R (filter P l).
Proof.
  induction 1 as [|x l Hl IH Hx]; [constructor|].
  rewrite filter_cons. case_decide; [|assumption].
  constructor; [assumption|].
  rewrite Forall_forall in *. intros y [_ Hy]%list_elem_of_filter. auto.
Qed.

Lemma extracted_imap (l : list Extracted.t) :
  SiteStyle.extracted
    <$> imap (fun index style => SiteStyle.mk style (Z.of_nat index)) l
  = l.
Proof.
  apply list_eq. intros i. rewrite list_lookup_fmap, list_lookup_imap.
  now destruct (l !! i).
Qed.

(** The objects extracted from the styles of the site, before the
    filter: one per style, in order. *)
Lemma fetchAllStyles_steps
    (webflow : Webflow) (registry : PresetRegistry)
    (allStyles : list Style.t) :
  getAllStyles webflow = Resolved allStyles ->
  exists all,
    fetchAllStyles webflow registry
    = Resolved (imap (fun index style => SiteStyle.mk style (Z.of_nat index))
                  (filter (fun style => truthy (Extracted.name style)) all))
    /\ length all = length allStyles
    /\ forall i style e,
         allStyles !! i = Some style -> all !! i = Some e ->
         extractStyle (currentPreset registry) i style = Resolved e.
Proof.
  intros Hall. unfold fetchAllStyles. rewrite Hall. simpl.
  destruct (promiseAll_imap allStyles (extractStyle (currentPreset registry)))
    as (all & Hpromise & Hlen & Heach).
  { intros i style _.
    destruct (extractStyle_resolves (currentPreset registry) i style)
      as (e & He & _). eauto. }
  exists all. rewrite Hpromise. auto.
Qed.

(** X11. The site-wide fetch fails only when [webflow.getAllStyles()]
    does, and then with its error: no failure of [getName],
    [isComboClass], [getProperties] or of the preset lookup escapes. *)
Theorem fetchAllStyles_failure
    (webflow : Webflow) (registry : PresetRegistry) :
  match getAllStyles webflow with
  | Rejected error => fetchAllStyles webflow registry = Rejected error
  | Resolved _ => exists result, fetchAllStyles webflow registry = Resolved result
  end.
Proof.
  destruct (getAllStyles webflow) as [allStyles|error] eqn:Hall.
  - destruct (fetchAllStyles_steps webflow registry allStyles Hall)
      as (all & -> & _). eauto.
  - unfold fetchAllStyles. now rewrite Hall.
Qed.

(** X12. The fetch returns exactly the styles whose name can be read
    and is not blank and on which the detection does not reject: every
    entry has a non-empty name and is extracted from the style at its
    [index] (that style's id and trimmed name, the result of the
    detection run on the name as the host gave it), and every such
    style has an entry, duplicates of an id included. *)
Theorem fetchAllStyles_entries
    (webflow : Webflow) (registry : PresetRegistry)
    (allStyles : list Style.t) :
  getAllStyles webflow = Resolved allStyles ->
  exists result,
    fetchAllStyles webflow registry = Resolved result
    /\ (forall site, site ∈ result ->
          Extracted.name (SiteStyle.extracted site) <> []
          /\ exists i style,
               allStyles !! i = Some style
               /\ extractedFrom (currentPreset registry) i style
                                (SiteStyle.extracted site))
    /\ (forall i style name,
          allStyles !! i = Some style ->
          Style.getName style = Resolved name ->
          trimmedNameOf name <> [] ->
          (exists detection,
             detectComboClass style (nameOrEmpty name) (currentPreset registry)
             = Resolved detection) ->
          exists site, site ∈ result
            /\ Extracted.index (SiteStyle.extracted site) = Z.of_nat i).
Proof.
  intros Hall.
  destruct (fetchAllStyles_steps webflow registry allStyles Hall)
    as (all & -> & Hlen & Heach).
  eexists. split; [reflexivity|]. split.
  - intros site (k & e & -> & Hk)%elem_of_lookup_imap. simpl.
    apply list_elem_of_lookup_2, list_elem_of_filter in Hk as [Hname He].
    apply Is_true_true, truthy_nonempty in Hname. split; [assumption|].
    apply list_elem_of_lookup in He as [i Hi].
    assert (is_Some (allStyles !! i)) as [style Hstyle].
    { apply lookup_lt_is_Some. rewrite <- Hlen.
      eapply lookup_lt_Some, Hi. }
    exists i, style. split; [assumption|].
    specialize (Heach i style e Hstyle Hi).
    destruct (extractStyle_resolves (currentPreset registry) i style)
      as (e' & He' & _ & [Hfrom|[_ Hempty]]);
      rewrite Heach in He'; injection He' as <-; [assumption|].
    contradiction.
  - intros i style name Hstyle Hname Htrim [detection Hdetect].
    assert (is_Some (all !! i)) as [e He].
    { apply lookup_lt_is_Some. rewrite Hlen. eapply lookup_lt_Some, Hstyle. }
    specialize (Heach i style e Hstyle He).
    destruct (extractStyle_resolves (currentPreset registry) i style)
      as (e' & He' & Hindex
          & [(name' & Hn & _ & Hen & _)
            |[[[err Herr]|(name' & err & Hn & Herr)] _]]);
      rewrite Heach in He'; injection He' as <-; [|congruence|].
    2: { rewrite Hname in Hn. injection Hn as <-. congruence. }
    rewrite Hname in Hn. injection Hn as <-.
    assert (Hin : e ∈ filter (fun style => truthy (Extracted.name style)) all).
    { apply list_elem_of_filter. split.
      - apply Is_true_true, truthy_nonempty. now rewrite Hen.
      - eapply list_elem_of_lookup_2, He. }
    apply list_elem_of_lookup in Hin as [k Hk].
    exists (SiteStyle.mk e (Z.of_nat k)). split; [|assumption].
    apply (elem_of_lookup_imap_2
             (fun index style => SiteStyle.mk style (Z.of_nat index)) _ _ _ Hk).
Qed.

(** [fetchAllStyles_entries] on a site of four styles, two of which are
    kept. *)
Lemma fetchAllStyles_entries_witness :
  getAllStyles siteOfFour = Resolved fourStyles
  /\ exists result,
       fetchAllStyles siteOfFour (mockRegistry "heuristic-only-preset")
       = Resolved result
       /\ (forall site, site ∈ result ->
             Extracted.name (SiteStyle.extracted site) <> []
             /\ exists i style,
                  fourStyles !! i = Some style
                  /\ extractedFrom
                       (currentPreset (mockRegistry "heuristic-only-preset"))
                       i style (SiteStyle.extracted site))
       /\ (forall i style name,
             fourStyles !! i = Some style ->
             Style.getName style = Resolved name ->
             trimmedNameOf name <> [] ->
             (exists detection,
                detectComboClass style (nameOrEmpty name)
                  (currentPreset (mockRegistry "heuristic-only-preset"))
                = Resolved detection) ->
             exists site, site ∈ result
               /\ Extracted.index (SiteStyle.extracted site) = Z.of_nat i).
Proof.
  split; [reflexivity|].
  apply fetchAllStyles_entries. reflexivity.
Defined.

(** X13. The [order] of a site-wide entry is its position in the
    returned list (0, 1, 2, ... with no gap, unlike [index], which
    keeps the position in [webflow.getAllStyles()]); the entries come
    in strictly ascending [index]. *)
Theorem fetchAllStyles_order
    (webflow : Webflow) (registry : PresetRegistry)
    (result : list SiteStyle.t) :
  fetchAllStyles webflow registry = Resolved result ->
  (forall k site, result !! k = Some site -> SiteStyle.order site = Z.of_nat k)
  /\ StronglySorted indexBelow (SiteStyle.extracted <$> result).
Proof.
  intros Hfetch.
  destruct (getAllStyles webflow) as [allStyles|error] eqn:Hall;
    [|unfold fetchAllStyles in Hfetch; now rewrite Hall in Hfetch].
  destruct (fetchAllStyles_steps webflow registry allStyles Hall)
    as (all & Heq & Hlen & Heach).
  rewrite Heq in Hfetch. injection Hfetch as <-. split.
  - intros k site Hk. rewrite list_lookup_imap in Hk.
    destruct (filter _ all !! k); simplify_eq/=. reflexivity.
  - rewrite extracted_imap.
    apply StronglySorted_filter, StronglySorted_of_lookup.
    intros i j a b Hij Hi Hj.
    assert (Hindex : forall i e, all !! i = Some e ->
                                 Extracted.index e = Z.of_nat i).
    { intros i' e He.
      assert (is_Some (allStyles !! i')) as [style Hstyle].
      { apply lookup_lt_is_Some. rewrite <- Hlen. eapply lookup_lt_Some, He. }
      specialize (Heach i' style e Hstyle He).
      destruct (extractStyle_resolves (currentPreset registry) i' style)
        as (e' & He' & Hindex & _).
      rewrite Heach in He'. now injection He' as <-. }
    unfold indexBelow. rewrite (Hindex i a Hi), (Hindex j b Hj). lia.
Qed.

(** [fetchAllStyles_order] on the site of four styles: the entry taken
    from index 3 has order 1. *)
Lemma fetchAllStyles_order_witness :
  fetchAllStyles siteOfFour (mockRegistry "heuristic-only-preset")
  = Resolved siteOfFourStyles
  /\ (forall k site, siteOfFourStyles !! k = Some site ->
        SiteStyle.order site = Z.of_nat k)
  /\ StronglySorted indexBelow (SiteStyle.extracted <$> siteOfFourStyles).
Proof.
  split; [reflexivity|].
  apply (fetchAllStyles_order siteOfFour (mockRegistry "heuristic-only-preset")).
  reflexivity.
Defined.

(** X14. The site-wide styles are fetched once per session: after a
    first call, every later call returns the promise of the first and
    leaves the cache as it is, whatever the site and the preset have
    become, also when that promise is a rejected one; only
    [resetStyleServiceCache] makes the next call fetch again. *)
Theorem getAllStylesWithProperties_memoized
    (webflow webflow' : Webflow) (registry registry' : PresetRegistry)
    (cache : Cache) :
  getAllStylesWithProperties webflow' registry'
    (fst (getAllStylesWithProperties webflow registry cache))
  = getAllStylesWithProperties webflow registry cache
  /\ getAllStylesWithProperties webflow' registry'
       (resetStyleServiceCache
          (fst (getAllStylesWithProperties webflow registry cache)))
     = (Some (fetchAllStyles webflow' registry'),
        fetchAllStyles webflow' registry').
Proof.
  split; [|reflexivity].
  unfold getAllStylesWithProperties. now destruct cache.
Qed.

(** ** The two paths to the heuristic *)

Lemma detect_heuristic_only
    (style : Style.t) (className : jsstring) (preset : option Preset.t) :
  policyOf preset = Some (PolicyName (js "heuristic-only")) ->
  detectComboClass style className preset
  = Resolved (mkResult (heuristicResult className) SrcHeuristic).
Proof.
  intros Hpolicy. fetch_signal style; select_policy Hpolicy.
Qed.

(** X15. Under ['heuristic-only'] the entries of [getAppliedStyles]
    can be checked from their own name: [isCombo] is the heuristic on
    the (trimmed) name of the entry, and the source is ["heuristic"]. *)
Theorem getAppliedStyles_heuristic_only
    (registry : PresetRegistry) (element : option Element.t) :
  policyOf (currentPreset registry) = Some (PolicyName (js "heuristic-only")) ->
  exists result,
    getAppliedStyles registry element = Resolved result
    /\ forall info, info ∈ result ->
         StyleInfo.isCombo info = heuristicResult (StyleInfo.name info)
         /\ StyleInfo.comboDetectionSource info = SrcHeuristic.
Proof.
  intros Hpolicy. rewrite getAppliedStyles_loop.
  eexists. split; [reflexivity|]. intros info Hin.
  apply (processStyles_built _ (appliedStylesOf element) []) in Hin
    as (i & style & _ & name & _ & _ & Hname & _ & _ & Hdetect);
    [|intros ? Hnil; inversion Hnil].
  rewrite detect_heuristic_only in Hdetect by assumption.
  rewrite Hname. injection Hdetect as -> ->. auto.
Qed.

(** [getAppliedStyles_heuristic_only] under the heuristic-only preset of
    the mocked registry. *)
Lemma getAppliedStyles_heuristic_only_witness :
  policyOf (currentPreset (mockRegistry "heuristic-only-preset"))
  = Some (PolicyName (js "heuristic-only"))
  /\ exists result,
       getAppliedStyles (mockRegistry "heuristic-only-preset")
                        elementWithDuplicate = Resolved result
       /\ forall info, info ∈ result ->
            StyleInfo.isCombo info = heuristicResult (StyleInfo.name info)
            /\ StyleInfo.comboDetectionSource info = SrcHeuristic.
Proof.
  split; [reflexivity|].
  apply getAppliedStyles_heuristic_only. reflexivity.
Defined.

(** Every site-wide entry is extracted from the style at its index. *)
Lemma fetchAllStyles_sound
    (webflow : Webflow) (registry : PresetRegistry)
    (allStyles : list Style.t) (result : list SiteStyle.t)
    (site : SiteStyle.t) :
  getAllStyles webflow = Resolved allStyles ->
  fetchAllStyles webflow registry = Resolved result ->
  site ∈ result ->
  exists i style,
    allStyles !! i = Some style
    /\ extractedFrom (currentPreset registry) i style
                     (SiteStyle.extracted site).
Proof.
  intros Hall Hfetch.
  destruct (fetchAllStyles_steps webflow registry allStyles Hall)
    as (all & Heq & Hlen & Heach).
  rewrite Heq in Hfetch. injection Hfetch as <-.
  intros (k & e & -> & Hk)%elem_of_lookup_imap. simpl.
  apply list_elem_of_lookup_2, list_elem_of_filter in Hk as [Hname He].
  apply Is_true_true, truthy_nonempty in Hname.
  apply list_elem_of_lookup in He as [i Hi].
  assert (is_Some (allStyles !! i)) as [style Hstyle].
  { apply lookup_lt_is_Some. rewrite <- Hlen. eapply lookup_lt_Some, Hi. }
  exists i, style. split; [assumption|].
  specialize (Heach i style e Hstyle Hi).
  destruct (extractStyle_resolves (currentPreset registry) i style)
    as (e' & He' & _ & [Hfrom|[_ Hempty]]);
    rewrite Heach in He'; injection He' as <-; [assumption|contradiction].
Qed.

(** X16. The site-wide fetch runs the detection on the name as the host
    gives it and reports the trimmed name: under ['heuristic-only'], a
    style whose name begins with white space is reported as not a
    combo, under its trimmed name, whatever that name is. *)
Theorem fetchAllStyles_leading_space
    (webflow : Webflow) (registry : PresetRegistry)
    (allStyles : list Style.t) (result : list SiteStyle.t)
    (site : SiteStyle.t) (i : nat) (style : Style.t)
    (c : code_unit) (rest : jsstring) :
  getAllStyles webflow = Resolved allStyles ->
  fetchAllStyles webflow registry = Resolved result ->
  policyOf (currentPreset registry) = Some (PolicyName (js "heuristic-only")) ->
  site ∈ result ->
  Extracted.index (SiteStyle.extracted site) = Z.of_nat i ->
  allStyles !! i = Some style ->
  Style.getName style = Resolved (Some (c :: rest)) ->
  isTrimmed c = true ->
  Extracted.isCombo (SiteStyle.extracted site) = false
  /\ Extracted.name (SiteStyle.extracted site) = trim (c :: rest).
Proof.
  intros Hall Hfetch Hpolicy Hin Hindex Hstyle Hname Hspace.
  destruct (fetchAllStyles_sound _ _ _ _ _ Hall Hfetch Hin)
    as (i' & style' & Hstyle' & name & Hname' & _ & Hn & Hi' & _ & Hdetect).
  assert (i' = i) as -> by lia.
  rewrite Hstyle in Hstyle'. injection Hstyle' as <-.
  rewrite Hname in Hname'. injection Hname' as <-.
  rewrite detect_heuristic_only in Hdetect by assumption.
  injection Hdetect as Hcombo _. split; [|exact Hn].
  rewrite <- Hcombo. simpl.
  destruct (c =? code "i") eqn:Hc.
  - apply N.eqb_eq in Hc as ->. discriminate Hspace.
  - unfold heuristicResult, test, comboPattern.
    rewrite rmatch_Seq, !rmatch_Alt.
    change (rmatch (Star Dot)) with (star Dot).
    rewrite !rmatch_litThenClass. unfold litThenClass.
    change (js "is-") with (code "i" :: js "s-").
    change (js "is_") with (code "i" :: js "s_").
    change (js "is") with (code "i" :: js "s").
    cbn [afterLit]. now rewrite Hc.
Qed.

(** [fetchAllStyles_leading_space] on the first style of the site of
    four, named [" is-active"]: its entry is named ["is-active"] and is
    not a combo. *)
Lemma fetchAllStyles_leading_space_witness :
  getAllStyles siteOfFour = Resolved fourStyles
  /\ fetchAllStyles siteOfFour (mockRegistry "heuristic-only-preset")
     = Resolved siteOfFourStyles
  /\ policyOf (currentPreset (mockRegistry "heuristic-only-preset"))
     = Some (PolicyName (js "heuristic-only"))
  /\ firstOfFour ∈ siteOfFourStyles
  /\ Extracted.index (SiteStyle.extracted firstOfFour) = Z.of_nat 0
  /\ fourStyles !! 0%nat = Some (createMockStyle "1" " is-active" None)
  /\ Style.getName (createMockStyle "1" " is-active" None)
     = Resolved (Some (0x20 :: js "is-active"))
  /\ isTrimmed 0x20 = true
  /\ Extracted.isCombo (SiteStyle.extracted firstOfFour) = false
  /\ Extracted.name (SiteStyle.extracted firstOfFour)
     = trim (0x20 :: js "is-active").
Proof.
  assert (Hin : firstOfFour ∈ siteOfFourStyles) by (apply list_elem_of_here).
  split; [reflexivity|]. split; [reflexivity|]. split; [reflexivity|].
  split; [exact Hin|]. split; [reflexivity|]. split; [reflexivity|].
  split; [reflexivity|]. split; [reflexivity|].
  apply (fetchAllStyles_leading_space siteOfFour
           (mockRegistry "heuristic-only-preset") fourStyles siteOfFourStyles
           firstOfFour 0%nat (createMockStyle "1" " is-active" None)
           0x20 (js "is-active"));
    try reflexivity.
  exact Hin.
Defined.

(** ** [getAppliedStylesWithElementId] *)

Lemma mapThrowing_resolved {A B} (f : A -> Outcome B) (g : A -> B)
    (l : list A) :
  (forall a, a ∈ l -> f a = Resolved (g a)) ->
  mapThrowing f l = Resolved (g <$> l).
Proof.
  induction l as [|a l IH]; intros Hf; [reflexivity|].
  cbn [mapThrowing]. rewrite (Hf a) by apply list_elem_of_here.
  rewrite IH by (intros; apply Hf; now apply list_elem_of_further).
  reflexivity.
Qed.

(** X17. [getAppliedStylesWithElementId] resolves for every element,
    also for [null]: [element.id] is only read once per returned style,
    and a missing element has none. Its result is the result of
    [getAppliedStyles], each entry tagged with the element's id. *)
Theorem getAppliedStylesWithElementId_spec
    (registry : PresetRegistry) (element : option IdentifiedElement.t) :
  exists result,
    getAppliedStylesWithElementId registry element = Resolved result
    /\ getAppliedStyles registry (IdentifiedElement.handle <$> element)
       = Resolved (StyleWithElement.info <$> result)
    /\ forall tagged, tagged ∈ result ->
         exists e, element = Some e
                   /\ StyleWithElement.elementId tagged = IdentifiedElement.id e.
Proof.
  unfold getAppliedStylesWithElementId. rewrite getAppliedStyles_loop.
  destruct element as [e|]; simpl.
  - set (styles := uniqueStyles _).
    rewrite (mapThrowing_resolved _
               (fun style => StyleWithElement.mk style (IdentifiedElement.id e)))
      by reflexivity.
    eexists. split; [reflexivity|]. split.
    + rewrite <- list_fmap_compose. now rewrite list_fmap_id.
    + intros tagged (style & -> & _)%list_elem_of_fmap. eauto.
  - exists []. repeat split. intros tagged Hin. inversion Hin.
Qed.

(** ** [sortStylesByType]: sorting again, and sorting applied styles *)

(** The call, in terms of the store: one allocation, holding the sorted
    entries. *)
Lemma sortStylesByType_eq
    (st : Store) (styles : nat) (elems : list StyleInfo.t) :
  st !! styles = Some elems ->
  sortStylesByType st styles
  = Some (<[fresh (dom st) := sorted compareStyles elems]> st,
          fresh (dom st)).
Proof.
  intros Hstyles. unfold sortStylesByType, spread, sortInPlace.
  rewrite Hstyles. simpl. rewrite lookup_insert_eq. simpl.
  now rewrite insert_insert_eq.
Qed.

(** Sorting leaves a sorted array as it is. *)
Lemma sorted_of_sorted {A} (comparefn : A -> A -> Z) (l : list A) :
  StronglySorted (fun x y => (comparefn x y <= 0)%Z) l ->
  sorted comparefn l = l.
Proof.
  induction 1 as [|x l Hl IH Hx]; [reflexivity|].
  simpl. rewrite IH. destruct Hx as [|y l' Hy _]; [reflexivity|].
  simpl. now apply Z.leb_le in Hy as ->.
Qed.

(** X18. Sorting is idempotent, and never in place: applying
    [sortStylesByType] to its own result gives yet another array, with
    the same entries in the same sequence, and leaves the first result
    untouched. *)
Theorem sortStylesByType_twice
    (st : Store) (styles : nat) (elems : list StyleInfo.t) :
  st !! styles = Some elems ->
  exists st1 out1 st2 out2 result,
    sortStylesByType st styles = Some (st1, out1)
    /\ sortStylesByType st1 out1 = Some (st2, out2)
    /\ out2 <> out1
    /\ st1 !! out1 = Some result
    /\ st2 !! out1 = Some result
    /\ st2 !! out2 = Some result.
Proof.
  intros Hstyles.
  set (out1 := fresh (dom st)).
  set (result := sorted compareStyles elems).
  set (st1 := <[out1 := result]> st).
  assert (H1 : st1 !! out1 = Some result) by apply lookup_insert_eq.
  assert (Hne : fresh (dom st1) <> out1).
  { intros Heq. pose proof (is_fresh (dom st1)) as Hfresh.
    apply Hfresh. rewrite Heq. apply elem_of_dom. eauto. }
  exists st1, out1, (<[fresh (dom st1) := result]> st1), (fresh (dom st1)),
    result.
  split; [now apply (sortStylesByType_eq st styles elems)|]. split.
  - rewrite (sortStylesByType_eq st1 out1 result H1). do 3 f_equal.
    apply sorted_of_sorted.
    apply (sorted_sorted compareStyles before_total before_trans).
  - split; [assumption|]. split; [assumption|]. split.
    + now rewrite lookup_insert_ne.
    + apply lookup_insert_eq.
Qed.

(** [sortStylesByType_twice] on the store with the array of four
    entries. *)
Lemma sortStylesByType_twice_witness :
  ({[ 7%nat := fourEntries ]} : Store) !! 7%nat = Some fourEntries
  /\ exists st1 out1 st2 out2 result,
       sortStylesByType {[ 7%nat := fourEntries ]} 7 = Some (st1, out1)
       /\ sortStylesByType st1 out1 = Some (st2, out2)
       /\ out2 <> out1
       /\ st1 !! out1 = Some result
       /\ st2 !! out1 = Some result
       /\ st2 !! out2 = Some result.
Proof.
  split; [reflexivity|].
  apply (sortStylesByType_twice _ _ fourEntries). reflexivity.
Defined.

Lemma partition_perm (l : list StyleInfo.t) :
  filter isPlain l ++ filter isComboEntry l ≡ₚ l.
Proof.
  induction l as [|x l IH]; [reflexivity|].
  rewrite !filter_cons.
  destruct (decide (isPlain x)) as [Hp|Hp], (decide (isComboEntry x)) as [Hc|Hc];
    unfold isPlain, isComboEntry in Hp, Hc.
  - congruence.
  - simpl. now rewrite IH.
  - rewrite <- Permutation_middle. now rewrite IH.
  - destruct (StyleInfo.isCombo x); congruence.
Qed.

Lemma ascending_order_injective (l : list StyleInfo.t) (a b : StyleInfo.t) :
  StronglySorted orderBelow l -> a ∈ l -> b ∈ l ->
  StyleInfo.order a = StyleInfo.order b -> a = b.
Proof.
  intros Hsorted [i Hi]%list_elem_of_lookup [j Hj]%list_elem_of_lookup Heq.
  destruct (Nat.lt_trichotomy i j) as [Hlt|[->|Hlt]].
  - pose proof (StronglySorted_lookup _ _ Hsorted i j a b Hlt Hi Hj) as H.
    unfold orderBelow in H. lia.
  - congruence.
  - pose proof (StronglySorted_lookup _ _ Hsorted j i b a Hlt Hj Hi) as H.
    unfold orderBelow in H. lia.
Qed.

(** On entries in ascending [order], the plain ones followed by the
    combos are sorted for the comparator. *)
Lemma partition_sorted (l : list StyleInfo.t) :
  StronglySorted orderBelow l ->
  StronglySorted before (filter isPlain l ++ filter isComboEntry l).
Proof.
  intros Hsorted.
  assert (Hgroup : forall (P : StyleInfo.t -> Prop)
                          `{!forall x, Decision (P x)},
    (forall a b, P a -> P b -> orderBelow a b -> before a b) ->
    StronglySorted before (filter P l)).
  { intros P HdecP Himpl. apply StronglySorted_of_lookup.
    intros i j a b Hij Hi Hj.
    pose proof (StronglySorted_filter _ P l Hsorted) as Hf.
    pose proof (StronglySorted_lookup _ _ Hf i j a b Hij Hi Hj) as Hab.
    apply list_elem_of_lookup_2, list_elem_of_filter in Hi as [Ha _].
    apply list_elem_of_lookup_2, list_elem_of_filter in Hj as [Hb _].
    now apply Himpl. }
  apply StronglySorted_app_2.
  - intros a b [Ha _]%list_elem_of_filter [Hb _]%list_elem_of_filter.
    unfold before, compareStyles, isPlain, isComboEntry in *.
    rewrite Ha, Hb. simpl. lia.
  - apply Hgroup. unfold before, compareStyles, isPlain, orderBelow.
    intros a b -> ->. simpl. lia.
  - apply Hgroup. unfold before, compareStyles, isComboEntry, orderBelow.
    intros a b -> ->. simpl. lia.
Qed.

(** X19. On entries that come in ascending [order], as those of
    [getAppliedStyles] do, [sortStylesByType] is a stable partition: the
    new array holds the entries that are not combos, in their original
    sequence, followed by the combos, in their original sequence. *)
Theorem sortStylesByType_partitions
    (st : Store) (styles : nat) (elems : list StyleInfo.t) :
  st !! styles = Some elems ->
  StronglySorted orderBelow elems ->
  exists st' out,
    sortStylesByType st styles = Some (st', out)
    /\ st' !! out = Some (filter isPlain elems ++ filter isComboEntry elems).
Proof.
  intros Hstyles Hascending.
  rewrite (sortStylesByType_eq st styles elems Hstyles).
  do 2 eexists. split; [reflexivity|].
  rewrite lookup_insert_eq. f_equal.
  apply (StronglySorted_unique_strong before).
  - intros x1 x2 Hx1 Hx2 H12 H21.
    apply (ascending_order_injective elems); [assumption| | |].
    + now rewrite sorted_perm in Hx1.
    + now rewrite partition_perm in Hx2.
    + unfold before, compareStyles in *.
      destruct (StyleInfo.isCombo x1), (StyleInfo.isCombo x2);
        simpl in *; lia.
  - apply sorted_sorted; [exact before_total | exact before_trans].
  - now apply partition_sorted.
  - now rewrite sorted_perm, partition_perm.
Qed.

(** [sortStylesByType_partitions] on four applied entries. *)
Lemma sortStylesByType_partitions_witness :
  ({[ 2%nat := appliedEntries ]} : Store) !! 2%nat = Some appliedEntries
  /\ StronglySorted orderBelow appliedEntries
  /\ exists st' out,
       sortStylesByType {[ 2%nat := appliedEntries ]} 2 = Some (st', out)
       /\ st' !! out
          = Some (filter isPlain appliedEntries
                  ++ filter isComboEntry appliedEntries).
Proof.
  assert (H : StronglySorted orderBelow appliedEntries).
  { unfold appliedEntries, orderBelow.
    repeat (constructor; [|repeat constructor; simpl; lia]). constructor. }
  split; [reflexivity|]. split; [exact H|].
  apply sortStylesByType_partitions; [reflexivity | exact H].
Defined.

(** ** The element lint store *)

Section LintStore.
Context {R C : Type}.
Implicit Types (s : LintState.t R C) (window : Window R C)
  (el : option (SelectedElement R C)).




End LintStore.



(** ** [getAppliedStyles]: growing lists and failing preset lookups *)

Lemma processStyles_app (preset : option Preset.t)
    (styles more : list Style.t) : forall i acc,
  processStyles preset i (styles ++ more) acc
  = processStyles preset (i + length styles) more
      (processStyles preset i styles acc).
Proof.
  induction styles as [|style styles IH]; intros i acc; simpl.
  - now rewrite Nat.add_0_r.
  - rewrite IH. f_equal. lia.
Qed.

Lemma processStyles_extends (preset : option Preset.t)
    (styles : list Style.t) : forall i acc,
  uniqueStyles acc `prefix_of` uniqueStyles (processStyles preset i styles acc).
Proof.
  induction styles as [|style styles IH]; intros i acc; simpl; [reflexivity|].
  etransitivity; [|apply IH].
  destruct (iteration_cases preset i style acc)
    as [(_ & _ & _ & info & _ & _ & ->)|(_ & ->)]; simpl.
  - now apply prefix_app_r.
  - reflexivity.
Qed.

(** X24. Applying further styles to an element only appends entries:
    the entries that [getAppliedStyles] returned before, with their
    [order], are a prefix of what it returns afterwards. *)
Theorem getAppliedStyles_prefix
    (registry : PresetRegistry) (styles more : list Style.t) :
  exists result result',
    getAppliedStyles registry (elementWith styles) = Resolved result
    /\ getAppliedStyles registry (elementWith (styles ++ more))
       = Resolved result'
    /\ result `prefix_of` result'.
Proof.
  rewrite !getAppliedStyles_loop. do 2 eexists.
  split; [reflexivity|]. split; [reflexivity|].
  unfold elementWith, appliedStylesOf. simpl.
  rewrite processStyles_app. apply processStyles_extends.
Qed.

Lemma presetLookupFails_None (registry : PresetRegistry) :
  presetLookupFails registry -> currentPreset registry = None.
Proof.
  unfold currentPreset.
  intros [[err ->]|(id & -> & [[err Hid]|Hid])]; simpl; now rewrite ?Hid.
Qed.

Lemma detect_default_policy
    (style : Style.t) (className : jsstring) (apiFirst : Preset.t) :
  Preset.comboDetectionPolicy apiFirst = Some (PolicyName (js "api-first")) ->
  detectComboClass style className None
  = detectComboClass style className (Some apiFirst).
Proof.
  intros Hfirst. unfold detectComboClass. simpl. now rewrite Hfirst.
Qed.

Lemma processStyles_default_policy (apiFirst : Preset.t)
    (styles : list Style.t) : forall i acc,
  Preset.comboDetectionPolicy apiFirst = Some (PolicyName (js "api-first")) ->
  processStyles None i styles acc = processStyles (Some apiFirst) i styles acc.
Proof.
  induction styles as [|style styles IH]; intros i acc Hfirst; simpl;
    [reflexivity|].
  rewrite IH by assumption. do 2 f_equal. unfold processStyle.
  destruct (Style.getName style) as [name|err]; simpl; [|reflexivity].
  now rewrite (detect_default_policy _ _ apiFirst).
Qed.

(** X25. A preset lookup that fails is not an error for
    [getAppliedStyles]: whether [getCurrentPreset] throws, or
    [getPresetById] throws or returns nothing, the result is the one
    obtained under a preset whose policy is ['api-first']. *)
Theorem getAppliedStyles_without_preset
    (registry registry' : PresetRegistry) (apiFirst : Preset.t)
    (element : option Element.t) :
  presetLookupFails registry ->
  currentPreset registry' = Some apiFirst ->
  Preset.comboDetectionPolicy apiFirst = Some (PolicyName (js "api-first")) ->
  getAppliedStyles registry element = getAppliedStyles registry' element.
Proof.
  intros Hfails Hcurrent Hfirst. rewrite !getAppliedStyles_loop.
  rewrite (presetLookupFails_None registry Hfails), Hcurrent.
  now rewrite (processStyles_default_policy apiFirst).
Qed.

(** [getAppliedStyles_without_preset] on a registry whose
    [getCurrentPreset] throws, against the mocked api-first preset. *)
Lemma getAppliedStyles_without_preset_witness :
  presetLookupFails brokenRegistry
  /\ currentPreset (mockRegistry "api-first-preset")
     = Some (Preset.mk (js "api-first-preset")
                       (Some (PolicyName (js "api-first"))))
  /\ Preset.comboDetectionPolicy
       (Preset.mk (js "api-first-preset") (Some (PolicyName (js "api-first"))))
     = Some (PolicyName (js "api-first"))
  /\ getAppliedStyles brokenRegistry elementWithDuplicate
     = getAppliedStyles (mockRegistry "api-first-preset") elementWithDuplicate.
Proof.
  assert (H : presetLookupFails brokenRegistry)
    by (left; exists (js "not initialised"); reflexivity).
  split; [exact H|]. split; [reflexivity|]. split; [reflexivity|].
  apply (getAppliedStyles_without_preset brokenRegistry
           (mockRegistry "api-first-preset")
           (Preset.mk (js "api-first-preset")
                      (Some (PolicyName (js "api-first")))));
    [exact H | reflexivity | reflexivity].
Defined.

(** ** A custom policy that throws *)

(** Under a custom policy that throws on every call the per-style
    [try] blocks drop every style: both listings resolve, to nothing. *)
Example throwing_policy_drops_every_style :
  getAppliedStyles throwingRegistry elementWithDuplicate = Resolved []
  /\ fetchAllStyles siteOfFour throwingRegistry = Resolved []
  /\ getAppliedClassNames elementWithDuplicate
     = Resolved [js "card"; js "is-active"].
Proof. repeat split; reflexivity. Qed.
